(** * Fidas_data_downloader.py: the acquisition-and-conversion pipeline

    A shallow embedding of [src/Fidas_data_downloader.py] (the poller that
    downloads the monthly data file of the Palas Fidas 200 S station over FTP
    and converts it to netCDF), and the properties of it that the
    specification states.

    Conventions of the embedding.
    - Python [str] is [string] (a sequence of 8-bit characters); comparison of
      strings is by character code, as Python compares code points.
    - The script runs on a POSIX system (it uses [signal.SIGALRM]), where
      [os.path.normcase] is the identity, so [fnmatch] is case sensitive.
    - A raised exception is a value [Raise e]; a local variable that may be
      unbound is an [option].
    - Code with effects is a function from the world to a result and a new
      world. The world holds the local directory, the wall clock (in
      milliseconds), the pending alarm of [signal.alarm], what was printed,
      and every state the directory has been in.
    - The local directory is a finite map from path strings to contents; two
      different path strings name two different files. A write is visible
      in the directory at once.
    - Time passes only while the script waits for the station or sleeps.
    - What the station does (listing, blocks of a transfer and their delays,
      errors) is an input of the model. What pandas, numpy's floating point
      and [time.ctime] compute is left to a class of library operations. *)

From Stdlib Require Import ZArith Ascii String List Bool Lia Permutation Sorted.
From stdpp Require Import base option list gmap strings sorting pretty.

Local Open Scope Z_scope.

(* ================================================================== *)
(** * Exceptions *)

Inductive exc_class :=
  | FTPTimeoutError      (* class FTPTimeoutError(Exception) of the script *)
  | ValueError
  | UnboundLocalError
  | KeyError
  | TypeError
  | FileNotFoundError
  | ParserError          (* pandas.errors.ParserError *)
  | FtplibError          (* ftplib.all_errors: error_reply, error_perm, OSError, EOFError *)
  | OSError.

#[global] Instance exc_class_eq_dec : EqDecision exc_class.
Proof. solve_decision. Defined.

(** An exception object: its class and what [str(e)] gives. *)
Record exn := Exn { exn_class : exc_class; exn_msg : string }.

Inductive result (A : Type) :=
  | Ok (a : A)
  | Raise (e : exn).
Arguments Ok {A} a.
Arguments Raise {A} e.

Definition raises {A} (r : result A) (c : exc_class) : Prop :=
  match r with
  | Raise e => exn_class e = c
  | Ok _ => False
  end.

(* ================================================================== *)
(** * Python string primitives *)

Definition py_len (s : string) : Z := Z.of_nat (String.length s).

(** Index normalisation of a slice bound: a negative bound counts from the
    end, and every bound is clamped into [0, len]. *)
Definition slice_bound (len i : Z) : Z :=
  if i <? 0 then Z.max (len + i) 0 else Z.min i len.

(** [s[i:j]] *)
Definition py_slice (i j : Z) (s : string) : string :=
  let n := py_len s in
  let lo := slice_bound n i in
  let hi := slice_bound n j in
  String.substring (Z.to_nat lo) (Z.to_nat (hi - lo)) s.

(** [s[:j]] *)
Definition py_slice_to (j : Z) (s : string) : string := py_slice 0 j s.

(** [l[i:j]] on a list, for non-negative bounds *)
Definition list_slice {A} (i j : nat) (l : list A) : list A :=
  take (j - i) (drop i l).

(** [s.split(' ')]: split at every single space; never empty. *)
Fixpoint split_space (s : string) : list string :=
  match s with
  | EmptyString => [EmptyString]
  | String c s' =>
      if Ascii.eqb c " " then EmptyString :: split_space s'
      else match split_space s' with
           | [] => [String c EmptyString]
           | w :: ws => String c w :: ws
           end
  end.

(** [line.split(' ')[-1]] *)
Definition last_field (line : string) : string :=
  List.last (split_space line) EmptyString.

(* ================================================================== *)
(** * fnmatch

    [fnmatch.fnmatch(name, pat)] on POSIX: the pattern is translated to a
    regular expression anchored at both ends ([fnmatch.translate]) and the
    whole name must match. [*] matches any run of characters, [?] one
    character, [[seq]] one character of [seq], [[!seq]] one character not in
    [seq]; a [[] with no closing bracket is a literal; a []] right after
    the opening [[] or [[!] belongs to the set; [a-b] in a set is a range
    (a range whose bounds are in decreasing order is empty). *)

Inductive citem :=
  | CChar (c : ascii)
  | CRange (lo hi : ascii).

Inductive gtok :=
  | GLit (c : ascii)
  | GAny
  | GStar
  | GClass (neg : bool) (items : list citem).

(** The contents of a bracket expression, read left to right. *)
Fixpoint class_items (stuff : list ascii) : list citem :=
  match stuff with
  | [] => []
  | a :: rest =>
      match rest with
      | "-"%char :: b :: rest' => CRange a b :: class_items rest'
      | _ => CChar a :: class_items rest
      end
  end.

(** Is there a closing bracket for a [[] whose contents start here?
    ([j] skips an optional [!] and an optional []], then scans for []].) *)
Definition skip1 (c : ascii) (p : list ascii) : list ascii :=
  match p with
  | x :: p' => if Ascii.eqb x c then p' else p
  | [] => p
  end.

Definition has_close (p : list ascii) : bool :=
  existsb (Ascii.eqb "]") (skip1 "]" (skip1 "!" p)).

(** Scanner state of [translate]: outside a bracket expression, right after
    [[], right after [[!], or inside the set with the characters read so
    far (in reverse). *)
Inductive tstate :=
  | TOut
  | TOpen
  | TBang
  | TBody (neg : bool) (racc : list ascii).

Fixpoint translate_from (st : tstate) (p : list ascii) : list gtok :=
  match p with
  | [] => []
  | c :: p' =>
      match st with
      | TOut =>
          if Ascii.eqb c "*" then GStar :: translate_from TOut p'
          else if Ascii.eqb c "?" then GAny :: translate_from TOut p'
          else if Ascii.eqb c "[" then
            if has_close p' then translate_from TOpen p'
            else GLit c :: translate_from TOut p'
          else GLit c :: translate_from TOut p'
      | TOpen =>
          if Ascii.eqb c "!" then translate_from TBang p'
          else translate_from (TBody false [c]) p'
      | TBang => translate_from (TBody true [c]) p'
      | TBody neg racc =>
          if Ascii.eqb c "]"
          then GClass neg (class_items (rev racc)) :: translate_from TOut p'
          else translate_from (TBody neg (c :: racc)) p'
      end
  end.

Definition translate (pat : string) : list gtok :=
  translate_from TOut (list_ascii_of_string pat).

Definition citem_matches (c : ascii) (it : citem) : bool :=
  match it with
  | CChar a => Ascii.eqb a c
  | CRange lo hi => (N_of_ascii lo <=? N_of_ascii c)%N && (N_of_ascii c <=? N_of_ascii hi)%N
  end.

Definition class_matches (neg : bool) (items : list citem) (c : ascii) : bool :=
  xorb neg (existsb (citem_matches c) items).

(** Does the whole of [s] match the token sequence? *)
Fixpoint gmatch (toks : list gtok) (s : list ascii) {struct toks} : bool :=
  match toks with
  | [] => match s with [] => true | _ => false end
  | GLit a :: toks' =>
      match s with
      | c :: s' => Ascii.eqb a c && gmatch toks' s'
      | [] => false
      end
  | GAny :: toks' =>
      match s with
      | _ :: s' => gmatch toks' s'
      | [] => false
      end
  | GClass neg items :: toks' =>
      match s with
      | c :: s' => class_matches neg items c && gmatch toks' s'
      | [] => false
      end
  | GStar :: toks' =>
      (fix star (s : list ascii) : bool :=
         gmatch toks' s ||
         match s with
         | [] => false
         | _ :: s' => star s'
         end) s
  end.

Definition fnmatch (name pat : string) : bool :=
  gmatch (translate pat) (list_ascii_of_string name).

(* ================================================================== *)
(** * Period keys and their order *)

Definition period := (string * string)%type.

(** [(fn[-11:-7], fn[-6:-4])] *)
Definition year_month_of (fn : string) : period :=
  (py_slice (-11) (-7) fn, py_slice (-6) (-4) fn).

(** Order of Python tuples of strings: by the first component, then by the
    second. *)
Definition period_leb (a b : period) : bool :=
  match String.compare (fst a) (fst b) with
  | Lt => true
  | Gt => false
  | Eq => String.leb (snd a) (snd b)
  end.

Definition period_le (a b : period) : Prop := period_leb a b = true.

#[global] Instance period_le_dec : RelDecision period_le.
Proof. intros a b. unfold period_le. apply _. Defined.

(** [year_month.sort()] *)
Definition sort_periods (l : list period) : list period :=
  merge_sort period_le l.

(* ================================================================== *)
(** * Selection of the files to download *)

(** [os.path.exists(p)] against a directory state [fs]. *)
Definition path_exists {C} (fs : gmap string C) (p : string) : bool :=
  bool_decide (is_Some (fs !! p)).

(** [f"{local_path}/{fname}"] *)
Definition local_file (local_path fname : string) : string :=
  local_path +:+ "/" +:+ fname.

Definition instrument_pattern : string := "DUSTMONITOR*.txt".

(** [f'DUSTMONITOR*{year}_{month}.txt'] *)
Definition period_pattern (ym : period) : string :=
  "DUSTMONITOR*" +:+ fst ym +:+ "_" +:+ snd ym +:+ ".txt".

(** The inner [for fn in filenames: if fnmatch(...): fname = fn; break]:
    the first name of the listing that matches, if there is one. *)
Definition first_match (filenames : list string) (ym : period) : option string :=
  List.find (fun fn => fnmatch fn (period_pattern ym)) filenames.

(** What [to_be_downloaded.append(fname)] raises when [fname] is unbound
    (the wording of the message depends on the version of Python). *)
Definition unbound_fname : exn :=
  Exn UnboundLocalError "local variable 'fname' referenced before assignment".

(** The outer loop over [reversed(year_month)]. [fname] is the local
    variable of that name: unbound before the first successful search, and
    keeping its previous value when a later search finds nothing. *)
Fixpoint walk_periods {C} (fs : gmap string C) (local_path : string)
    (filenames : list string) (fname : option string)
    (to_be_downloaded : list string) (periods : list period)
  : result (list string) :=
  match periods with
  | [] => Ok to_be_downloaded
  | ym :: periods' =>
      let fname :=
        match first_match filenames ym with
        | Some fn => Some fn
        | None => fname
        end in
      match fname with
      | None => Raise unbound_fname
      | Some f =>
          let to_be_downloaded := to_be_downloaded ++ [f] in
          if path_exists fs (local_file local_path f)
          then Ok to_be_downloaded
          else walk_periods fs local_path filenames fname to_be_downloaded periods'
      end
  end.

(** The names of the listing that match the instrument pattern. *)
Definition matching_filenames (foldercontent : list string) : list string :=
  List.filter (fun fn => fnmatch fn instrument_pattern)
              (List.map last_field foldercontent).

Definition files_to_be_downloaded {C} (fs : gmap string C)
    (foldercontent : list string) (local_path : string)
  : result (option (list string)) :=
  let filenames := matching_filenames foldercontent in
  match filenames with
  | [] => Ok None
  | _ :: _ =>
      let year_month := sort_periods (List.map year_month_of filenames) in
      match walk_periods fs local_path filenames None [] (rev year_month) with
      | Ok l => Ok (Some l)
      | Raise e => Raise e
      end
  end.

(* ================================================================== *)
(** * Tables and netCDF datasets *)

(** A parsed table cell, by the dtype pandas gives its column. A float is
    kept as the text it was read from: the pipeline only moves floats
    around, rounding is outside the model. *)
Inductive cell :=
  | CInt (z : Z)            (* int64 *)
  | CFloat (lit : string)   (* float64 *)
  | CText (s : string)      (* object *)
  | CStamp (ns : Z)         (* datetime64[ns] *)
  | CSeconds (ns : Z).      (* float64: a duration of [ns] nanoseconds, in seconds *)

Inductive dtype := float32 | float64 | int16 | uint8.

Inductive ncdata :=
  | Vec (values : list cell)
  | Mat (rows : list (list cell)).

Record ncvar := NcVar {
  nc_name : string;
  nc_dtype : dtype;
  nc_dims : list string;
  nc_units : string;
  nc_long_name : string;
  nc_data : ncdata
}.

Record dataset := Dataset {
  ds_title : string;
  ds_dims : list (string * option nat);   (* [None]: unlimited *)
  ds_vars : list ncvar;
  ds_closed : bool
}.

(* ================================================================== *)
(** * The world: directory, clock, pending alarm, console *)

Inductive content :=
  | RawFile (bytes : string)
  | NetCDF (ds : dataset).

Abbreviation directory := (gmap string content).

Record World := mkWorld {
  files : directory;
  now : Z;                        (* wall clock, in milliseconds *)
  alarm : option (Z * exn);       (* pending SIGALRM: deadline, and what the
                                     installed handler raises *)
  stdout : list string;           (* printed lines, oldest first *)
  history : list directory        (* every state the directory has been
                                     in after a change, newest first *)
}.

Definition M (A : Type) : Type := World -> result A * World.

#[global] Instance M_ret : MRet M := fun A a w => (Ok a, w).
#[global] Instance M_bind : MBind M := fun A B f m w =>
  match m w with
  | (Ok a, w') => f a w'
  | (Raise e, w') => (Raise e, w')
  end.

Definition raise {A} (e : exn) : M A := fun w => (Raise e, w).

(** [try: body / except Exception as e: handler(e)]; every exception of
    the model is a subclass of [Exception]. *)
Definition try_except {A} (body : M A) (handler : exn -> M A) : M A :=
  fun w =>
    match body w with
    | (Ok a, w') => (Ok a, w')
    | (Raise e, w') => handler e w'
    end.

(** [try: body / except cls as e: handler(e)] *)
Definition try_except_of {A} (cls : exc_class) (body : M A) (handler : exn -> M A)
  : M A :=
  fun w =>
    match body w with
    | (Ok a, w') => (Ok a, w')
    | (Raise e, w') =>
        if decide (exn_class e = cls) then handler e w' else (Raise e, w')
    end.

(** [try: body / finally: cleanup] *)
Definition try_finally {A} (body : M A) (cleanup : M unit) : M A :=
  fun w =>
    match body w with
    | (r, w') =>
        match cleanup w' with
        | (Ok _, w'') => (r, w'')
        | (Raise e, w'') => (Raise e, w'')
        end
    end.

Definition set_files (d : directory) (w : World) : World :=
  mkWorld d (now w) (alarm w) (stdout w) (d :: history w).

Definition set_now (t : Z) (w : World) : World :=
  mkWorld (files w) t (alarm w) (stdout w) (history w).

Definition set_alarm (a : option (Z * exn)) (w : World) : World :=
  mkWorld (files w) (now w) a (stdout w) (history w).

Definition print (line : string) : M unit :=
  fun w => (Ok tt, mkWorld (files w) (now w) (alarm w) (stdout w ++ [line]) (history w)).

(** [time.time()] *)
Definition time : M Z := fun w => (Ok (now w), w).

Definition milliseconds (seconds : Z) : Z := 1000 * seconds.

(** Blocking for [d] milliseconds. If an alarm is pending and falls due
    no later than the end of the wait, the signal handler runs at the
    deadline and its exception interrupts the blocked call. *)
Definition wait (d : Z) : M unit :=
  fun w =>
    match alarm w with
    | Some (deadline, e) =>
        if deadline <=? now w + d
        then (Raise e, set_alarm None (set_now deadline w))
        else (Ok tt, set_now (now w + d) w)
    | None => (Ok tt, set_now (now w + d) w)
    end.

(** [time.sleep(secs)], [secs] in milliseconds here. *)
Definition sleep (d : Z) : M unit :=
  if d <? 0 then raise (Exn ValueError "sleep length must be non-negative")
  else wait d.

(** [signal.signal(SIGALRM, handler); signal.alarm(seconds)] *)
Definition signal_alarm (seconds : Z) (handler_raises : exn) : M unit :=
  fun w =>
    (Ok tt, set_alarm (if seconds =? 0 then None
                       else Some (now w + milliseconds seconds, handler_raises)) w).

(** [open(path, 'wb')]: create or truncate. *)
Definition open_wb (path : string) : M unit :=
  fun w => (Ok tt, set_files (<[path := RawFile ""]> (files w)) w).

(** [fp.write(data)] on the file opened at [path]. *)
Definition write_bytes (path data : string) : M unit :=
  fun w =>
    let old := match files w !! path with
               | Some (RawFile b) => b
               | _ => ""
               end in
    (Ok tt, set_files (<[path := RawFile (old +:+ data)]> (files w)) w).

(** [os.rename(src, dst)]: one step, replacing [dst] if it exists. *)
Definition os_rename (src dst : string) : M unit :=
  fun w =>
    match files w !! src with
    | Some c => (Ok tt, set_files (<[dst := c]> (delete src (files w))) w)
    | None => (Raise (Exn FileNotFoundError src), w)
    end.

(* ================================================================== *)
(** * Constants of the script *)

Definition DownloadInterval : Z := 60 * 10.   (* in seconds *)
Definition MaxTimeAllowed : Z := 60 * 3.      (* in seconds *)
(** [np.datetime64('2020-01-01T00:00:00')], in nanoseconds since the epoch,
    and its [str]. *)
Definition basetime : Z := 1577836800 * 10 ^ 9.
Definition basetime_str : string := "2020-01-01T00:00:00".
Definition timezone : string := "+04:00".

(* ================================================================== *)
(** * The timeout decorator *)

(** [timeout(seconds, error_message)(func)]: the handler raising
    [FTPTimeoutError(error_message)] is installed, the alarm is set, [func]
    runs, and the alarm is cancelled on every exit path. *)
Definition timeout {A} (seconds : Z) (error_message : string) (func : M A) : M A :=
  _ ← signal_alarm seconds (Exn FTPTimeoutError error_message);
  try_finally func (signal_alarm 0 (Exn FTPTimeoutError error_message)).

(* ================================================================== *)
(** * The FTP server, as the script sees it *)

(** What the server does on [RETR]: blocks of data, each after a delay (in
    milliseconds), then either the end of the transfer or an error. *)
Record retr_script := RetrScript {
  retr_chunks : list (Z * string);
  retr_last_delay : Z;
  retr_error : option exn
}.

(** An open connection: the answer to [RETR name], and to [QUIT]. *)
Record ftp := Ftp {
  ftp_retr : string -> retr_script;
  ftp_quit : option exn
}.

(** [ftpobj.retrbinary(cmd, callback)] *)
Fixpoint retr_blocks (chunks : list (Z * string)) (callback : string -> M unit)
  : M unit :=
  match chunks with
  | [] => mret tt
  | (d, data) :: rest =>
      _ ← wait d; _ ← callback data; retr_blocks rest callback
  end.

Definition retrbinary (script : retr_script) (callback : string -> M unit) : M unit :=
  _ ← retr_blocks (retr_chunks script) callback;
  _ ← wait (retr_last_delay script);
  match retr_error script with
  | Some e => raise e
  | None => mret tt
  end.

(* ================================================================== *)
(** * Download *)

(** [with open(local_fname, 'wb') as fp: ftpobj.retrbinary(..., fp.write)],
    under [@timeout(seconds=MaxTimeAllowed, ...)]. Closing the file on exit
    changes nothing in the directory. *)
Definition _get_ftp_file (ftpobj : ftp) (remote_fname local_fname : string) : M unit :=
  timeout MaxTimeAllowed "Timeout while downloading data file."
    (_ ← open_wb local_fname;
     retrbinary (ftp_retr ftpobj remote_fname) (write_bytes local_fname)).

Definition staging_txt (local_path : string) : string :=
  local_file local_path "temporary_dust_file.txt".

Definition download_data_file (ftpobj : ftp) (local_path filename : string) : M unit :=
  try_except_of FTPTimeoutError
    (_ ← _get_ftp_file ftpobj filename (staging_txt local_path);
     os_rename (staging_txt local_path) (local_file local_path filename))
    (fun err => raise err).

(* ================================================================== *)
(** * Conversion to netCDF *)

#[global] Instance result_ret : MRet result := fun A a => Ok a.
#[global] Instance result_bind : MBind result := fun A B f r =>
  match r with
  | Ok a => f a
  | Raise e => Raise e
  end.

#[global] Instance result_fmap : FMap result := fun A B f r =>
  match r with
  | Ok a => Ok (f a)
  | Raise e => Raise e
  end.

(** A [DataFrame]: column labels and rows. *)
Record frame := Frame {
  columns : list string;
  rows : list (list cell)
}.

(** What the libraries do that the model leaves to them. *)
Class Libraries := {
  (** the pandas tokenizer with its dtype inference: the bytes of a
      tab-separated file to the header labels and the typed rows *)
  tokenize : string -> result (list string * list (list cell));
  (** the pandas date parser, to nanoseconds since the epoch *)
  to_datetime : string -> option Z;
  (** does [float(x)] accept the text? *)
  float_ok : string -> bool;
  (** [time.ctime()] at a clock value *)
  ctime : Z -> string;
  (** [np.dot(block, weights).astype(np.uint8)] on a block of flags that
      is not of integer dtype *)
  dot_astype_uint8_other : list (list cell) -> result (list cell)
}.

(** Position of a label among the columns. *)
Fixpoint index_of (label : string) (labels : list string) : option nat :=
  match labels with
  | [] => None
  | l :: labels' =>
      if String.eqb l label then Some 0%nat
      else S <$> index_of label labels'
  end.

Definition nan : cell := CFloat "nan".

(** [dustdata[label].to_numpy()] *)
Definition column_values (fr : frame) (label : string) : result (list cell) :=
  match index_of label (columns fr) with
  | Some i => Ok (List.map (fun r => nth i r nan) (rows fr))
  | None => Raise (Exn KeyError label)
  end.

(** Positions of a list of labels. *)
Fixpoint indices_of (labels : list string) (cols : list string)
  : result (list nat) :=
  match labels with
  | [] => Ok []
  | l :: labels' =>
      match index_of l cols with
      | Some i => ixs ← indices_of labels' cols; Ok (i :: ixs)
      | None => Raise (Exn KeyError l)
      end
  end.

(** [dustdata[labels].to_numpy()]: one row per record, one entry per
    label, in the order of [labels]. *)
Definition select_columns (fr : frame) (labels : list string)
  : result (list (list cell)) :=
  ixs ← indices_of labels (columns fr);
  Ok (List.map (fun r => List.map (fun i => nth i r nan) ixs) (rows fr)).

Definition date_time_cell `{Libraries} (d t : cell) : cell :=
  match d, t with
  | CText a, CText b =>
      match to_datetime (a +:+ " " +:+ b) with
      | Some ns => CStamp ns
      | None => CText (a +:+ " " +:+ b)
      end
  | _, _ => CText ""
  end.

(** Removing the entries at two positions. *)
Definition drop_two {A} (i j : nat) (l : list A) : list A :=
  delete (Nat.min i j) (delete (Nat.max i j) l).

(** [pandas.read_table(..., parse_dates=[['date', 'time']])] on the bytes
    of a file: the columns [date] and [time] are replaced by one column
    [date_time], which comes first; the other columns keep their order. *)
Definition parse_table `{Libraries} (bytes : string) : result frame :=
  match tokenize bytes with
  | Raise e => Raise e
  | Ok (header, rws) =>
      match index_of "date" header, index_of "time" header with
      | Some i, Some j =>
          Ok (Frame ("date_time" :: drop_two i j header)
                (List.map (fun r =>
                             date_time_cell (nth i r nan) (nth j r nan)
                               :: drop_two i j r) rws))
      | _, _ =>
          Raise (Exn ValueError "Missing column provided to 'parse_dates'")
      end
  end.

Definition read_table `{Libraries} (path : string) : M frame :=
  fun w =>
    match files w !! path with
    | Some (RawFile bytes) =>
        match parse_table bytes with
        | Ok fr => (Ok fr, w)
        | Raise e => (Raise e, w)
        end
    | Some (NetCDF _) => (Raise (Exn ParserError path), w)
    | None => (Raise (Exn FileNotFoundError path), w)
    end.

(** ** The derived variables *)

(** [np.array([[1],[2],[4],[8],[16],[32],[64],[128]])] *)
Definition error_weights : list Z := [1; 2; 4; 8; 16; 32; 64; 128].

Definition dot (row weights : list Z) : Z :=
  fold_right Z.add 0 (zip_with Z.mul row weights).

(** int64 arithmetic wraps around; [astype(np.uint8)] keeps the low 8 bits. *)
Definition wrap_int64 (z : Z) : Z := (z + 2 ^ 63) mod 2 ^ 64 - 2 ^ 63.
Definition astype_uint8 (z : Z) : Z := z mod 256.

Definition errors_of_row (flags : list Z) : Z :=
  astype_uint8 (wrap_int64 (dot flags error_weights)).

Definition int_of_cell (c : cell) : option Z :=
  match c with
  | CInt z => Some z
  | _ => None
  end.

(** The integers of a row, and of a block, of integer dtype. *)
Fixpoint ints_of_cells (r : list cell) : option (list Z) :=
  match r with
  | [] => Some []
  | c :: r' =>
      match int_of_cell c, ints_of_cells r' with
      | Some z, Some zs => Some (z :: zs)
      | _, _ => None
      end
  end.

Fixpoint ints_of_block (block : list (list cell)) : option (list (list Z)) :=
  match block with
  | [] => Some []
  | r :: block' =>
      match ints_of_cells r, ints_of_block block' with
      | Some zs, Some zss => Some (zs :: zss)
      | _, _ => None
      end
  end.

(** [np.dot(dustdata[dustdata.columns[11:19]].to_numpy(), weights)
       .astype(np.uint8)] *)
Definition errors_values `{Libraries} (fr : frame) : result (list cell) :=
  let labels := list_slice 11 19 (columns fr) in
  block ← select_columns fr labels;
  if negb (length labels =? 8)%nat
  then Raise (Exn ValueError "shapes not aligned")
  else
    match ints_of_block block with
    | Some ints => Ok (List.map (fun r => CInt (errors_of_row r)) ints)
    | None => dot_astype_uint8_other block
    end.

(** [np.array([float(x) for x in sizes_labels])] *)
Definition sizes_values `{Libraries} (sizes_labels : list string)
  : result (list cell) :=
  if forallb float_ok sizes_labels
  then Ok (List.map CFloat sizes_labels)
  else Raise (Exn ValueError "could not convert string to float").

(** [(t - basetime).total_seconds()] *)
Definition seconds_since_basetime (c : cell) : result cell :=
  match c with
  | CStamp ns => Ok (CSeconds (ns - basetime))
  | _ => Raise (Exn TypeError "unsupported operand type(s) for -")
  end.

Fixpoint mapR {A B} (f : A -> result B) (l : list A) : result (list B) :=
  match l with
  | [] => Ok []
  | a :: l' => b ← f a; bs ← mapR f l'; Ok (b :: bs)
  end.

Definition time_values (fr : frame) : result (list cell) :=
  col ← column_values fr "date_time";
  mapR seconds_since_basetime col.

(** ** The output schema, in the order the script writes it *)

Inductive source :=
  | Sizes
  | Time
  | Column (label : string)
  | ColumnAs (label : string) (cast : dtype)
  | Spectra
  | Errors.

Record varspec := VarSpec {
  vs_name : string;
  vs_dtype : dtype;
  vs_dims : list string;
  vs_units : string;
  vs_long_name : string;
  vs_source : source
}.

Definition variables : list varspec := [
  VarSpec "sizes" float32 ["sizes"] "µm"
    "size classes of dust particles"
    (Sizes);
  VarSpec "time" float64 ["time"] ("Seconds since " +:+ basetime_str +:+ timezone)
    "time"
    (Time);
  VarSpec "PM1" float32 ["time"] "µg/m³"
    "dust concentration up to 1 µm size"
    (Column "PM1");
  VarSpec "PM2.5" float32 ["time"] "µg/m³"
    "dust concentration up to 2.5 µm size"
    (Column "PM2.5");
  VarSpec "PM4" float32 ["time"] "µg/m³"
    "dust concentration up to 4 µm size"
    (Column "PM4");
  VarSpec "PM10" float32 ["time"] "µg/m³"
    "dust concentration up to 10 µm size"
    (Column "PM10");
  VarSpec "PMtot" float32 ["time"] "µg/m³"
    "total dust concentration"
    (Column "PMtot");
  VarSpec "Cn" float32 ["time"] "particles/cm³"
    "count number per volume"
    (Column "Cn");
  VarSpec "rH" float32 ["time"] "%"
    "relative humidity"
    (Column "rH");
  VarSpec "dewT" float32 ["time"] "°C"
    "dew point temperature"
    (Column "T_dew_point");
  VarSpec "T" float32 ["time"] "°C"
    "air temperature"
    (Column "T");
  VarSpec "p" float32 ["time"] "hPa"
    "atmospheric pressure"
    (Column "p");
  VarSpec "Wspeed" float32 ["time"] "Km/h"
    "wind speed"
    (Column "wind speed");
  VarSpec "Wdir" float32 ["time"] "°"
    "wind direction"
    (Column "wind direction");
  VarSpec "Wq" float32 ["time"] "%"
    "wind signal quality"
    (Column "wind signal quality");
  VarSpec "prec" float32 ["time"] "l/m²/h"
    "precipitation intensity"
    (Column "prec. int.");
  VarSpec "ptype" int16 ["time"] ""
    "precipitation type"
    (ColumnAs "prec. type" int16);
  VarSpec "spectra" float32 ["time"; "sizes"] "particles/cm³"
    "size spectra: count number per volume in given size channel"
    (Spectra);
  VarSpec "flowrate" float32 ["time"] "l/min"
    "flowrate"
    (Column "flowrate");
  VarSpec "velocity" float32 ["time"] "m/s"
    "velocity"
    (Column "velocity");
  VarSpec "coincidence" float32 ["time"] "%"
    "coincidence"
    (Column "coincidence");
  VarSpec "po" float32 ["time"] "%"
    "pump output"
    (Column "pump output");
  VarSpec "IADS_T" float32 ["time"] "°C - 318=not activated"
    "IADS Temperature"
    (Column "IADS T");
  VarSpec "cd" float32 ["time"] "raw channels"
    "channel deviation"
    (Column "channel deviation");
  VarSpec "LED_T" float32 ["time"] "°C"
    "LED Temperature"
    (Column "LED T");
  VarSpec "errors" uint8 ["time"] ""
    "errors: 1=flow; 2=coincidence; 4=pump; 8=weather station; 16=IADS; 32=channel deviation; 64=LED temperature; 128=operation mode"
    (Errors);
  VarSpec "mode" uint8 ["time"] ""
    "operation mode: 0=scope; 1=auto; 2=manual; 3=idle; 4=calib; 5=offset"
    (ColumnAs "modus" uint8);
  VarSpec "PM1a" float32 ["time"] "µg/m³"
    "PM1 - ambient"
    (Column "alt. PM#1");
  VarSpec "PM2.5a" float32 ["time"] "µg/m³"
    "PM2.5 - ambient"
    (Column "alt. PM#2");
  VarSpec "PM4a" float32 ["time"] "µg/m³"
    "PM4 - ambient"
    (Column "alt. PM#3");
  VarSpec "PM10a" float32 ["time"] "µg/m³"
    "PM10 - ambient"
    (Column "alt. PM#4");
  VarSpec "PMtota" float32 ["time"] "µg/m³"
    "PMtot - ambient"
    (Column "alt. PM#5");
  VarSpec "PM1c" float32 ["time"] "µg/m³"
    "PM1 - classic"
    (Column "alt. PM#6");
  VarSpec "PM2.5c" float32 ["time"] "µg/m³"
    "PM2.5 - classic"
    (Column "alt. PM#7");
  VarSpec "PM4c" float32 ["time"] "µg/m³"
    "PM4 - classic"
    (Column "alt. PM#8");
  VarSpec "PM10c" float32 ["time"] "µg/m³"
    "PM10 - classic"
    (Column "alt. PM#9");
  VarSpec "PMtotc" float32 ["time"] "µg/m³"
    "PMtot - classic"
    (Column "alt. PM#10");
  VarSpec "PMth" float32 ["time"] "µg/m³"
    "PM thoracic"
    (Column "alt. PM#11");
  VarSpec "PMal" float32 ["time"] "µg/m³"
    "PM alveolar"
    (Column "alt. PM#12");
  VarSpec "PMre" float32 ["time"] "µg/m³"
    "PM respirable"
    (Column "alt. PM#13")
].

(** The value assigned to a variable. Values are stored as read: the cast
    to the dtype of the variable is recorded in the variable, not applied
    (the [errors] field apart, whose arithmetic is modelled). *)
Definition source_values `{Libraries} (fr : frame) (sizes_labels : list string)
    (src : source) : result ncdata :=
  match src with
  | Sizes => Vec <$> sizes_values sizes_labels
  | Time => Vec <$> time_values fr
  | Column label => Vec <$> column_values fr label
  | ColumnAs label _ => Vec <$> column_values fr label
  | Spectra => Mat <$> select_columns fr sizes_labels
  | Errors => Vec <$> errors_values fr
  end.

(** ** Writing the dataset *)

Definition staging_nc (local_path : string) : string :=
  local_file local_path "temporary_dust_file.nc".

(** [Dataset(path, mode='w')]: create or truncate. *)
Definition Dataset_create (path title : string) : M unit :=
  fun w => (Ok tt, set_files (<[path := NetCDF (Dataset title [] [] false)]> (files w)) w).

Definition update_dataset (path : string) (f : dataset -> dataset) : M unit :=
  fun w =>
    match files w !! path with
    | Some (NetCDF ds) => (Ok tt, set_files (<[path := NetCDF (f ds)]> (files w)) w)
    | _ => (Raise (Exn OSError path), w)
    end.

Definition createDimension (path name : string) (size : option nat) : M unit :=
  update_dataset path
    (fun ds => Dataset (ds_title ds) (ds_dims ds ++ [(name, size)]) (ds_vars ds) (ds_closed ds)).

(** [v = ncfile.createVariable(...); v.units = ...; v.long_name = ...] *)
Definition createVariable (path : string) (vs : varspec) : M unit :=
  update_dataset path
    (fun ds => Dataset (ds_title ds) (ds_dims ds)
                 (ds_vars ds ++ [NcVar (vs_name vs) (vs_dtype vs) (vs_dims vs)
                                   (vs_units vs) (vs_long_name vs) (Vec [])])
                 (ds_closed ds)).

Definition set_data (name : string) (data : ncdata) (v : ncvar) : ncvar :=
  if String.eqb (nc_name v) name
  then NcVar (nc_name v) (nc_dtype v) (nc_dims v) (nc_units v) (nc_long_name v) data
  else v.

(** [v[:] = data] *)
Definition assign (path name : string) (data : ncdata) : M unit :=
  update_dataset path
    (fun ds => Dataset (ds_title ds) (ds_dims ds)
                 (List.map (set_data name data) (ds_vars ds)) (ds_closed ds)).

Definition Dataset_close (path : string) : M unit :=
  update_dataset path
    (fun ds => Dataset (ds_title ds) (ds_dims ds) (ds_vars ds) true).

Definition lift {A} (r : result A) : M A := fun w => (r, w).

(** One block of the script: create the variable, set its attributes,
    compute its values and assign them. *)
Definition write_variable `{Libraries} (path : string) (fr : frame)
    (sizes_labels : list string) (vs : varspec) : M unit :=
  _ ← createVariable path vs;
  data ← lift (source_values fr sizes_labels (vs_source vs));
  assign path (vs_name vs) data.

Fixpoint write_variables `{Libraries} (path : string) (fr : frame)
    (sizes_labels : list string) (vss : list varspec) : M unit :=
  match vss with
  | [] => mret tt
  | vs :: vss' =>
      _ ← write_variable path fr sizes_labels vs;
      write_variables path fr sizes_labels vss'
  end.

Definition convert_to_netCFD4 `{Libraries} (local_path filename : string) : M unit :=
  dustdata ← read_table (local_file local_path filename);
  let sizes_labels := list_slice 43 121 (columns dustdata) in
  let nc := staging_nc local_path in
  t ← time;
  _ ← Dataset_create nc ("PALAS Fidas 200 S data - downloaded on " +:+ ctime t);
  _ ← createDimension nc "sizes" (Some (length sizes_labels));
  _ ← write_variables nc dustdata sizes_labels (take 1 variables);
  _ ← createDimension nc "time" None;
  _ ← write_variables nc dustdata sizes_labels (drop 1 variables);
  _ ← Dataset_close nc;
  os_rename nc (local_file local_path (py_slice_to (-4) filename +:+ ".nc")).

(* ================================================================== *)
(** * The main loop *)

(** [from Fidas_credentials import *]: the module is not part of the
    sources; its names are taken as given. *)
Record credentials := Credentials {
  IP_NUMBER : string;
  USERNAME : string;
  PASSWORD : string;
  DATADIR : string;
  TARGET_PATH : string
}.

(** The station as one cycle finds it: how long connecting and listing
    take, what they give (the lines of [LIST], or the exception of
    [FTP(...)], [login], [cwd] or [retrlines]), and the session. *)
Record remote := Remote {
  connect_delay : Z;
  connect_result : result (list string);
  session : ftp
}.

Definition open_ftp_get_file_list (r : remote)
    (ipnum username password folder : string) : M (ftp * list string) :=
  _ ← wait (connect_delay r);
  match connect_result r with
  | Ok foldercontent => mret (session r, foldercontent)
  | Raise e => raise e
  end.

(** [ftplink.quit()] *)
Definition ftp_quit_cmd (ftplink : ftp) : M unit :=
  match ftp_quit ftplink with
  | Some e => raise e
  | None => mret tt
  end.

Definition nl : string := String (ascii_of_nat 10) "".

(** The body of [for fname in to_be_downloaded]. *)
Fixpoint fetch_and_convert `{Libraries} (ftplink : ftp) (target : string)
    (to_be_downloaded : list string) : M unit :=
  match to_be_downloaded with
  | [] => mret tt
  | fname :: rest =>
      _ ← print ("Downloading: " +:+ fname);
      _ ← download_data_file ftplink target fname;
      _ ← print ("Converting " +:+ fname +:+ " to netCDF4");
      _ ← convert_to_netCFD4 target fname;
      fetch_and_convert ftplink target rest
  end.

(** The first line a cycle prints. *)
Definition banner `{Libraries} (t : Z) : string :=
  "---" +:+ nl +:+ "ACCESS Fidas 200S data downloader - " +:+ ctime t +:+ ".".

(** The body of the [try] of one iteration. *)
Definition cycle_body `{Libraries} (cred : credentials) (r : remote) : M unit :=
  start_time ← time;
  _ ← print (banner start_time);
  '(ftplink, foldercontent) ←
     open_ftp_get_file_list r (IP_NUMBER cred) (USERNAME cred) (PASSWORD cred)
       (DATADIR cred);
  _ ← print ("Connection open." +:+ nl +:+ "Fetching file list.");
  to_be_downloaded ←
    (fun w => lift (files_to_be_downloaded (files w) foldercontent (TARGET_PATH cred)) w);
  match to_be_downloaded with
  | None => raise (Exn ValueError ("Data files not found in folder: " +:+ DATADIR cred))
  | Some to_be_downloaded =>
      _ ← fetch_and_convert ftplink (TARGET_PATH cred) to_be_downloaded;
      _ ← ftp_quit_cmd ftplink;
      _ ← print "All done. Connection closed.";
      t ← time;
      let elapsed_time := t - start_time in
      sleep (milliseconds DownloadInterval - elapsed_time)
  end.

(** One iteration of [while True]. *)
Definition poll_cycle `{Libraries} (cred : credentials) (r : remote) : M unit :=
  try_except (cycle_body cred r) (fun e => print (exn_msg e)).

(** The first iterations of [while True], one per element of [station]:
    what the station does in each. *)
Fixpoint main_loop `{Libraries} (cred : credentials) (station : list remote) : M unit :=
  match station with
  | [] => mret tt
  | r :: station' => _ ← poll_cycle cred r; main_loop cred station'
  end.

(* ================================================================== *)
(** * Definitions used by the statements *)

(** The token of a pattern character outside bracket expressions. *)
Definition tok1 (c : ascii) : gtok :=
  if Ascii.eqb c "*" then GStar
  else if Ascii.eqb c "?" then GAny
  else GLit c.

(** The fixed parts of the instrument pattern. *)
Definition prefix_chars : list ascii := list_ascii_of_string "DUSTMONITOR".
Definition suffix_chars : list ascii := list_ascii_of_string ".txt".

(** ** The naming convention of the station *)

Definition is_digit (c : ascii) : bool :=
  (48 <=? N_of_ascii c)%N && (N_of_ascii c <=? 57)%N.

Definition all_digits (s : string) : bool :=
  forallb is_digit (list_ascii_of_string s).

(** [DUSTMONITOR<anything><YYYY>_<MM>.txt]: the name is the prefix, anything,
    four digits, an underscore, two digits and the extension, the digits
    being the ones the period key is cut from. *)
Definition follows_convention (fn : string) : bool :=
  let (year, month) := year_month_of fn in
  String.eqb fn ("DUSTMONITOR" +:+ py_slice 11 (-11) fn +:+ year +:+ "_"
                 +:+ month +:+ ".txt")
  && (String.length year =? 4)%nat && (String.length month =? 2)%nat
  && all_digits year && all_digits month.

(** The prefix of a list up to and including the first element that
    satisfies [p] (the whole list if there is none). *)
Fixpoint take_through {A} (p : A -> bool) (l : list A) : list A :=
  match l with
  | [] => []
  | x :: l' => if p x then [x] else x :: take_through p l'
  end.

(** Is the data file [fname] in the local directory? *)
Definition present {C} (fs : gmap string C) (local_path fname : string) : bool :=
  path_exists fs (local_file local_path fname).

(** The name the inner search finds for a period (the empty name when it
    finds none). *)
Definition pick (filenames : list string) (ym : period) : string :=
  default EmptyString (first_match filenames ym).

(** The periods in the order the outer loop visits them. *)
Definition visited_periods (filenames : list string) : list period :=
  rev (sort_periods (List.map year_month_of filenames)).

(** ** Sample inputs *)

Definition demo_listing : list string :=
  ["-rw-r--r-- 1 ftp ftp 4096 Jan 31 23:59 DUSTMONITOR_7777_2024_01.txt";
   "-rw-r--r-- 1 ftp ftp 4096 Feb 29 23:59 DUSTMONITOR_7777_2024_02.txt";
   "-rw-r--r-- 1 ftp ftp 1024 Mar 03 10:00 DUSTMONITOR_7777_2024_03.txt";
   "drwxr-xr-x 2 ftp ftp 4096 Mar 03 10:00 logs"].

(** A local directory that holds the file of 2024-01 only. *)
Definition demo_directory : directory :=
  {[ "/data/DUSTMONITOR_7777_2024_01.txt" := RawFile "january" ]}.

(** A listing whose only data file has no period in its name. *)
Definition short_name_listing : list string :=
  ["-rw-r--r-- 1 ftp ftp 1024 Mar 03 10:00 DUSTMONITOR.txt"].

(** A listing with a data file whose name has a question mark where the
    year begins. *)
Definition question_mark_listing : list string :=
  ["-rw-r--r-- 1 ftp ftp 1024 Mar 03 10:00 DUSTMONITOR_2024_03.txt";
   "-rw-r--r-- 1 ftp ftp 1024 Mar 03 10:00 DUSTMONITOR_?024_03.txt"].

(** A listing with two data files of the same period. *)
Definition same_period_listing : list string :=
  ["-rw-r--r-- 1 ftp ftp 1024 Mar 03 10:00 DUSTMONITOR_1111_2024_03.txt";
   "-rw-r--r-- 1 ftp ftp 1024 Mar 03 10:00 DUSTMONITOR_2222_2024_03.txt"].

(** A data file of the station, as the tokenizer reads it: [date], [time],
    ten measurements, the eight error flags, 24 more fields, 78 size
    channels (largest first) and two last fields. *)
Definition demo_header : list string :=
  ["date"; "time"]
  ++ ["PM1"; "PM2.5"; "PM4"; "PM10"; "PMtot"; "Cn"; "rH"; "T_dew_point"; "T"; "p"]
  ++ ["flow error"; "coincidence error"; "pump error"; "weather station error";
      "IADS error"; "channel deviation error"; "LED temperature error";
      "operation mode error"]
  ++ ["wind speed"; "wind direction"; "wind signal quality"; "prec. int.";
      "prec. type"; "flowrate"; "velocity"; "coincidence"; "pump output";
      "IADS T"; "channel deviation"; "LED T"; "modus";
      "alt. PM#1"; "alt. PM#2"; "alt. PM#3"; "alt. PM#4"; "alt. PM#5";
      "alt. PM#6"; "alt. PM#7"; "alt. PM#8"; "alt. PM#9"; "alt. PM#10";
      "alt. PM#11"]
  ++ List.map (fun n : nat => pretty n) (rev (seq 1 78))
  ++ ["alt. PM#12"; "alt. PM#13"].

(** One record: the flags of weight 1 and 8 are set. *)
Definition demo_row : list cell :=
  [CText "2024-03-03"; CText "10:00:00"]
  ++ repeat (CFloat "1.5") 10
  ++ List.map CInt [1; 0; 0; 1; 0; 0; 0; 0]
  ++ repeat (CFloat "2.5") 4 ++ [CInt 0] ++ repeat (CFloat "3.5") 7 ++ [CInt 1]
  ++ repeat (CFloat "4.5") 11
  ++ List.map (fun n : nat => CFloat (pretty n +:+ ".25")) (rev (seq 1 78))
  ++ repeat (CFloat "5.5") 2.

#[global] Instance demo_libraries : Libraries := {|
  tokenize := fun bytes =>
    if String.eqb bytes "" then Raise (Exn ParserError "No columns to parse from file")
    else Ok (demo_header, [demo_row]);
  to_datetime := fun _ => Some (1709460000 * 10 ^ 9);
  float_ok := fun _ => true;
  ctime := fun _ => "Sun Mar  3 10:00:00 2024";
  dot_astype_uint8_other := fun _ => Raise (Exn TypeError "object array")
|}.

Definition demo_frame : frame :=
  match parse_table "demo" with
  | Ok fr => fr
  | Raise _ => Frame [] []
  end.

(** ** Statements about runs *)

(** A run of [m] changes the directory at paths in [P] only: it adds some
    states to the history, and each of them, like the final one, agrees
    with the initial directory at every other path. *)
Definition keeps {A} (P : string -> Prop) (m : M A) : Prop :=
  forall w r w', m w = (r, w') ->
    exists new, history w' = new ++ history w /\
                forall d, In d (files w' :: new) ->
                          forall p, ~ P p -> d !! p = files w !! p.

(** The outcome [out] of a run from [w] publishes [final] atomically: in
    every state the directory went through during the run, [final] is as
    it was before the run, except for the last state of a successful run,
    in which [final] holds a complete content. *)
Definition publishes_atomically {A} (final : string) (complete : content -> Prop)
    (w : World) (out : result A * World) : Prop :=
  exists new,
    history (snd out) = new ++ history w /\
    match fst out with
    | Ok _ =>
        exists older c,
          new = files (snd out) :: older /\
          files (snd out) !! final = Some c /\ complete c /\
          Forall (fun d : directory => d !! final = files w !! final) older
    | Raise _ =>
        Forall (fun d : directory => d !! final = files w !! final) new /\
        files (snd out) !! final = files w !! final
    end.

(** All the bytes the server sends on a transfer. *)
Definition retr_bytes (script : retr_script) : string :=
  fold_right String.append "" (List.map snd (retr_chunks script)).

(** How long the transfer lasts if nothing interrupts it. *)
Definition retr_duration (script : retr_script) : Z :=
  fold_right Z.add 0 (List.map fst (retr_chunks script)) + retr_last_delay script.

(** The variable [v] of a dataset is the variable [vs] of the schema, with
    the values computed from the table. *)
Definition written `{Libraries} (fr : frame) (vs : varspec) (v : ncvar) : Prop :=
  nc_name v = vs_name vs /\ nc_dtype v = vs_dtype vs /\ nc_dims v = vs_dims vs /\
  nc_units v = vs_units vs /\ nc_long_name v = vs_long_name vs /\
  source_values fr (list_slice 43 121 (columns fr)) (vs_source vs) = Ok (nc_data v).

(** A complete artifact for the table file at [txt]: a closed dataset that
    holds every variable of the schema, in order, computed from the table
    read from [txt]. *)
Definition complete_artifact `{Libraries} (w : World) (txt : string) (c : content) : Prop :=
  exists bytes fr ds,
    files w !! txt = Some (RawFile bytes) /\ parse_table bytes = Ok fr /\
    c = NetCDF ds /\ ds_closed ds = true /\
    ds_dims ds = [("sizes", Some (length (list_slice 43 121 (columns fr)))); ("time", None)] /\
    Forall2 (written fr) variables (ds_vars ds).

(** What the handler installed by [_get_ftp_file] raises. *)
Definition download_timeout : exn :=
  Exn FTPTimeoutError "Timeout while downloading data file.".

(** No delay of the transfer is negative. *)
Definition delays_ok (script : retr_script) : Prop :=
  Forall (fun d => 0 <= d) (List.map fst (retr_chunks script)) /\
  0 <= retr_last_delay script.

(** A station that answers every [RETR] with two blocks, one second
    apart, and one that sends them 100 seconds apart. *)
Definition quick_ftp : ftp :=
  Ftp (fun _ => RetrScript [(1000, "first half, "); (1000, "second half")] 10 None)
      None.

Definition slow_ftp : ftp :=
  Ftp (fun _ => RetrScript [(100000, "first half, "); (100000, "second half")] 10 None)
      None.

(** The world at the start: the sample directory, the clock at 0. *)
Definition demo_world : World := mkWorld demo_directory 0 None [] [].

(** The conversion up to and including [ncfile.close()]: everything that
    comes before the [os.rename] of [convert_to_netCFD4]. *)
Definition stage_artifact `{Libraries} (local_path filename : string) : M unit :=
  dustdata ← read_table (local_file local_path filename);
  let sizes_labels := list_slice 43 121 (columns dustdata) in
  let nc := staging_nc local_path in
  t ← time;
  _ ← Dataset_create nc ("PALAS Fidas 200 S data - downloaded on " +:+ ctime t);
  _ ← createDimension nc "sizes" (Some (length sizes_labels));
  _ ← write_variables nc dustdata sizes_labels (take 1 variables);
  _ ← createDimension nc "time" None;
  _ ← write_variables nc dustdata sizes_labels (drop 1 variables);
  Dataset_close nc.

(** Sample credentials and stations. *)
Definition demo_credentials : credentials :=
  Credentials "192.0.2.10" "user" "secret" "/fidas/data" "/data".

(** The station on a cycle in which connecting takes [d] milliseconds. *)
Definition demo_station (d : Z) : remote := Remote d (Ok demo_listing) quick_ftp.

(** A station that refuses the connection after [d] milliseconds. *)
Definition refusing_station (d : Z) : remote :=
  Remote d (Raise (Exn FtplibError "[Errno 111] Connection refused")) quick_ftp.

(** A world with no alarm pending, as at the start of every cycle. *)
Definition idle_world (fs : directory) (t : Z) (out : list string)
    (hist : list directory) : World :=
  mkWorld fs t None out hist.

(** What [n] cycles print when each fails with [e], [d] milliseconds
    after it started at [t]. *)
Fixpoint failed_cycles_log `{Libraries} (e : exn) (d t : Z) (n : nat) : list string :=
  match n with
  | O => []
  | S n' => banner t :: exn_msg e :: failed_cycles_log e d (t + d) n'
  end.

(* ================================================================== *)
(** * Definitions used by the further statements *)

(** A name built by the naming convention of the station. *)
Definition data_file_name (middle year month : string) : string :=
  "DUSTMONITOR" +:+ middle +:+ year +:+ "_" +:+ month +:+ ".txt".

(** [f"{filename[:-4]}.nc"]: the name of the artifact of a data file. *)
Definition artifact_name (filename : string) : string :=
  py_slice_to (-4) filename +:+ ".nc".

Definition no_space (s : string) : bool :=
  forallb (fun c => negb (Ascii.eqb c " ")) (list_ascii_of_string s).

(** The number a string of decimal digits denotes. *)
Fixpoint number_of (s : string) : N :=
  match s with
  | EmptyString => 0
  | String c s' =>
      ((N_of_ascii c - 48) * 10 ^ N.of_nat (String.length s') + number_of s')%N
  end.

(** Every run of [m] takes a world to a world related to it by [R]. *)
Definition steps (R : relation World) {A} (m : M A) : Prop :=
  forall w r w', m w = (r, w') -> R w w'.

(** [R] relates a world to every world that differs from it by the clock,
    the alarm and the console, by a file written at a path of [W], or by a
    file of [D] removed. *)
Record permits (R : relation World) (W D : string -> Prop) : Prop := Permits {
  permits_preorder : PreOrder R;
  permits_same_files :
    forall w w', files w' = files w -> R w w';
  permits_insert :
    forall w w' p c, W p -> files w' = <[p := c]> (files w) -> R w w';
  permits_rename :
    forall w w' src dst c, D src -> W dst ->
      files w' = <[dst := c]> (delete src (files w)) -> R w w'
}.

(** The paths the pipeline writes under the target directory: the two
    staging names, and for every name that matches the instrument pattern
    the data file and its artifact. *)
Definition staging_path (target p : string) : Prop :=
  p = staging_txt target \/ p = staging_nc target.

Definition pipeline_path (target p : string) : Prop :=
  staging_path target p \/
  exists f, fnmatch f instrument_pattern = true /\
            (p = local_file target f \/ p = local_file target (artifact_name f)).

(** The directory is the same outside the paths of [P]. *)
Definition same_outside (P : string -> Prop) : relation World :=
  fun w w' => forall p, ~ P p -> files w' !! p = files w !! p.

(** No file is lost outside the paths of [P]. *)
Definition nothing_lost_outside (P : string -> Prop) : relation World :=
  fun w w' => forall p, ~ P p -> is_Some (files w !! p) -> is_Some (files w' !! p).

(** No alarm is left pending. *)
Definition alarm_stays_off : relation World :=
  fun w w' => alarm w = None -> alarm w' = None.

(** The part of a cycle that comes before the sleep; it gives the time at
    which the cycle started. *)
Definition cycle_work `{Libraries} (cred : credentials) (r : remote) : M Z :=
  start_time ← time;
  _ ← print (banner start_time);
  '(ftplink, foldercontent) ←
     open_ftp_get_file_list r (IP_NUMBER cred) (USERNAME cred) (PASSWORD cred)
       (DATADIR cred);
  _ ← print ("Connection open." +:+ nl +:+ "Fetching file list.");
  to_be_downloaded ←
    (fun w => lift (files_to_be_downloaded (files w) foldercontent (TARGET_PATH cred)) w);
  match to_be_downloaded with
  | None => raise (Exn ValueError ("Data files not found in folder: " +:+ DATADIR cred))
  | Some to_be_downloaded =>
      _ ← fetch_and_convert ftplink (TARGET_PATH cred) to_be_downloaded;
      _ ← ftp_quit_cmd ftplink;
      _ ← print "All done. Connection closed.";
      mret start_time
  end.

(** The runs of the primitive operations are [R]-steps, writes being made
    at paths of [W] only and removals at paths of [D] only. *)
Record allows (R : relation World) (W D : string -> Prop) : Prop := Allows {
  allows_preorder : PreOrder R;
  allows_print : forall line, steps R (print line);
  allows_wait : forall d, steps R (wait d);
  allows_timeout :
    forall A seconds msg (func : M A),
      steps R func -> steps R (timeout seconds msg func);
  allows_write :
    forall p (f : World -> content), W p ->
      steps R (fun w => (Ok tt, set_files (<[p := f w]> (files w)) w));
  allows_rename :
    forall src dst, D src -> W dst -> steps R (os_rename src dst)
}.

(* ================================================================== *)
(** * Properties of the selection *)

Lemma matching_filenames_spec foldercontent fn :
  In fn (matching_filenames foldercontent) <->
  (exists line, In line foldercontent /\ last_field line = fn) /\
  fnmatch fn instrument_pattern = true.
Proof.
  unfold matching_filenames. rewrite filter_In, in_map_iff.
  split; intros [[line Hl] Hm]; (split; [exists line|]); tauto.
Qed.

Lemma matching_filenames_none foldercontent :
  (forall line, In line foldercontent ->
                fnmatch (last_field line) instrument_pattern = false) ->
  matching_filenames foldercontent = [].
Proof.
  intros Hno. destruct (matching_filenames foldercontent) as [|fn l] eqn:E; [done|].
  assert (Hin : In fn (matching_filenames foldercontent)) by (rewrite E; left; done).
  apply matching_filenames_spec in Hin as [[line [Hl <-]] Hm].
  rewrite (Hno line Hl) in Hm. discriminate.
Qed.

(** The walk only ever extends the list it was given, by names of the
    listing, and it extends it by at least one name when there is a period
    to look at. *)
Lemma walk_periods_extends {C} (fs : gmap string C) lp fns periods :
  forall fname acc l,
    walk_periods fs lp fns fname acc periods = Ok l ->
    (forall f, fname = Some f -> In f fns) ->
    exists added, l = acc ++ added /\
                  (periods <> [] -> added <> []) /\
                  (forall f, In f added -> In f fns).
Proof.
  induction periods as [|ym periods IH]; intros fname acc l Hw Hfn; simpl in Hw.
  - inversion Hw; subst. exists []. rewrite app_nil_r. split; [done|]. split; [done|].
    intros f [].
  - set (fname' := match first_match fns ym with
                   | Some fn => Some fn
                   | None => fname
                   end) in Hw.
    assert (Hfn' : forall f, fname' = Some f -> In f fns).
    { intros f. unfold fname'. destruct (first_match fns ym) as [fn|] eqn:E.
      - intros [= <-]. apply find_some in E. tauto.
      - apply Hfn. }
    destruct fname' as [f|] eqn:Ef; [|discriminate].
    destruct (path_exists fs (local_file lp f)).
    + inversion Hw; subst. exists [f]. split; [done|]. split; [done|].
      intros f' [<-|[]]. by apply Hfn'.
    + apply IH in Hw as (added & -> & _ & Hin); [|done].
      exists (f :: added). rewrite <- app_assoc. split; [done|]. split; [done|].
      intros f' [<-|Hf']; [by apply Hfn'|by apply Hin].
Qed.

Lemma sort_periods_nonempty l : l <> [] -> rev (sort_periods l) <> [].
Proof.
  intros Hl Hr. apply (f_equal (@length _)) in Hr.
  rewrite length_rev in Hr. unfold sort_periods in Hr.
  rewrite (Permutation_length (merge_sort_Permutation period_le l)) in Hr.
  destruct l; [done|discriminate].
Qed.

(** A returned list is never empty, and holds names of the listing only. *)
Lemma files_to_be_downloaded_some {C} (fs : gmap string C) foldercontent lp l :
  files_to_be_downloaded fs foldercontent lp = Ok (Some l) ->
  l <> [] /\ forall f, In f l -> In f (matching_filenames foldercontent).
Proof.
  unfold files_to_be_downloaded.
  destruct (matching_filenames foldercontent) as [|fn fns] eqn:E; [discriminate|].
  destruct (walk_periods _ _ _ _ _ _) as [l'|e] eqn:Hw; [|discriminate].
  intros [= <-].
  apply walk_periods_extends in Hw as (added & -> & Hne & Hin); [|discriminate].
  simpl. split; [|done].
  apply Hne, sort_periods_nonempty. discriminate.
Qed.

(** ** The order of period keys *)

Lemma string_compare_refl s : String.compare s s = Eq.
Proof.
  induction s as [|c s IH]; simpl; [done|].
  unfold Ascii.compare. by rewrite N.compare_refl.
Qed.

Lemma string_compare_lt_trans a :
  forall b c, String.compare a b = Lt -> String.compare b c = Lt ->
              String.compare a c = Lt.
Proof.
  induction a as [|x a IH]; intros [|y b] [|z c]; simpl; try done.
  unfold Ascii.compare.
  destruct (N.compare_spec (N_of_ascii x) (N_of_ascii y)) as [Exy|Lxy|Gxy];
    destruct (N.compare_spec (N_of_ascii y) (N_of_ascii z)) as [Eyz|Lyz|Gyz];
    try done; intros H1 H2.
  - rewrite Exy, Eyz, N.compare_refl. eauto.
  - rewrite Exy. apply N.compare_lt_iff in Lyz. by rewrite Lyz.
  - rewrite <- Eyz. apply N.compare_lt_iff in Lxy. by rewrite Lxy.
  - assert (Hlt : (N_of_ascii x < N_of_ascii z)%N) by lia.
    apply N.compare_lt_iff in Hlt. by rewrite Hlt.
Qed.

Lemma string_compare_gt_lt a b : String.compare a b = Gt -> String.compare b a = Lt.
Proof. intros H. rewrite String.compare_antisym, H. done. Qed.

Lemma string_leb_trans a b c :
  String.leb a b = true -> String.leb b c = true -> String.leb a c = true.
Proof.
  unfold String.leb.
  destruct (String.compare a b) eqn:Eab; [|  |done];
    destruct (String.compare b c) eqn:Ebc; try done; intros _ _.
  - apply String.compare_eq_iff in Eab, Ebc. subst. by rewrite string_compare_refl.
  - apply String.compare_eq_iff in Eab. subst. by rewrite Ebc.
  - apply String.compare_eq_iff in Ebc. subst. by rewrite Eab.
  - by rewrite (string_compare_lt_trans _ _ _ Eab Ebc).
Qed.

#[global] Instance period_le_refl : Reflexive period_le.
Proof.
  intros [y m]. unfold period_le, period_leb, String.leb. simpl.
  by rewrite !string_compare_refl.
Qed.

#[global] Instance period_le_trans : Transitive period_le.
Proof.
  intros [y1 m1] [y2 m2] [y3 m3]. unfold period_le, period_leb. simpl.
  destruct (String.compare y1 y2) eqn:E12; [| |done];
    destruct (String.compare y2 y3) eqn:E23; try done.
  - apply String.compare_eq_iff in E12, E23. subst.
    rewrite string_compare_refl. apply string_leb_trans.
  - apply String.compare_eq_iff in E12. subst. by rewrite E23.
  - apply String.compare_eq_iff in E23. subst. by rewrite E12.
  - by rewrite (string_compare_lt_trans _ _ _ E12 E23).
Qed.

#[global] Instance period_le_total : Total period_le.
Proof.
  intros [y1 m1] [y2 m2]. unfold period_le, period_leb. simpl.
  destruct (String.compare y1 y2) eqn:E12.
  - apply String.compare_eq_iff in E12. subst. rewrite string_compare_refl.
    apply String.leb_total.
  - by left.
  - right. by rewrite (string_compare_gt_lt _ _ E12).
Qed.

#[global] Instance period_le_antisym : AntiSymm (=) period_le.
Proof.
  intros [y1 m1] [y2 m2]. unfold period_le, period_leb. simpl.
  destruct (String.compare y1 y2) eqn:E12; [| |done].
  - apply String.compare_eq_iff in E12. subst. rewrite string_compare_refl.
    intros H1 H2. f_equal. by apply String.leb_antisym.
  - rewrite String.compare_antisym, E12. done.
Qed.

Lemma sort_periods_sorted l : StronglySorted period_le (sort_periods l).
Proof. apply StronglySorted_merge_sort; apply _. Qed.

Lemma sort_periods_perm l : sort_periods l ≡ₚ l.
Proof. apply merge_sort_Permutation. Qed.

(** Sorting is what any correct sort gives: the order is total and
    antisymmetric, so the sorted arrangement is unique. *)
Lemma sort_periods_unique l l' :
  StronglySorted period_le l' -> l' ≡ₚ l -> l' = sort_periods l.
Proof.
  intros Hs Hp. apply (StronglySorted_unique period_le); [done| |].
  - apply sort_periods_sorted.
  - by rewrite Hp, sort_periods_perm.
Qed.

(** ** Matching a pattern without bracket expressions *)

Lemma translate_no_bracket p :
  ~ In "["%char p -> translate_from TOut p = List.map tok1 p.
Proof.
  induction p as [|c p IH]; intros Hno; simpl; [done|].
  assert (Hc : c <> "["%char) by (intros ->; apply Hno; by left).
  assert (Hp : ~ In "["%char p) by (intros H; apply Hno; by right).
  unfold tok1 at 1.
  destruct (Ascii.eqb c "*"); [by rewrite IH|].
  destruct (Ascii.eqb c "?"); [by rewrite IH|].
  apply Ascii.eqb_neq in Hc. rewrite Hc. by rewrite IH.
Qed.

Lemma list_ascii_of_string_app a b :
  list_ascii_of_string (a +:+ b) = list_ascii_of_string a ++ list_ascii_of_string b.
Proof. induction a as [|c a IH]; simpl; [done|]. by rewrite IH. Qed.

Lemma list_ascii_of_string_inj a b :
  list_ascii_of_string a = list_ascii_of_string b -> a = b.
Proof.
  intros H. rewrite <- (string_of_list_ascii_of_string a),
    <- (string_of_list_ascii_of_string b). by rewrite H.
Qed.

Lemma gmatch_lits pre toks s :
  gmatch (List.map GLit pre ++ toks) s = true <->
  exists s', s = pre ++ s' /\ gmatch toks s' = true.
Proof.
  revert s. induction pre as [|a pre IH]; intros s; simpl.
  - split; [intros H; by exists s|intros (s' & -> & H); done].
  - destruct s as [|c s].
    + split; [done|]. intros (s' & H & _). discriminate.
    + rewrite andb_true_iff, Ascii.eqb_eq, IH. split.
      * intros [-> (s' & -> & H)]. by exists s'.
      * intros (s' & [= -> ->] & H). split; [done|]. by exists s'.
Qed.

Lemma gmatch_star toks s :
  gmatch (GStar :: toks) s = true <->
  exists a b, s = a ++ b /\ gmatch toks b = true.
Proof.
  simpl. induction s as [|c s IH].
  - rewrite orb_false_r. split.
    + intros H. by exists [], [].
    + intros (a & b & Hs & H). symmetry in Hs.
      apply app_eq_nil in Hs as [-> ->]. done.
  - rewrite orb_true_iff, IH. split.
    + intros [H|(a & b & -> & H)].
      * by exists [], (c :: s).
      * by exists (c :: a), b.
    + intros ([|x a] & b & Hs & H); simpl in Hs.
      * left. by subst.
      * right. injection Hs as -> ->. by exists a, b.
Qed.

Lemma gmatch_only_lits suf s : gmatch (List.map GLit suf) s = true <-> s = suf.
Proof.
  rewrite <- (app_nil_r (List.map GLit suf)), gmatch_lits. split.
  - intros (s' & -> & H). destruct s'; [by rewrite app_nil_r|done].
  - intros ->. exists []. by rewrite app_nil_r.
Qed.

(** A pattern [pre*suf] with no special character in [pre] and [suf]. *)
Lemma gmatch_pre_star_suf pre suf s :
  gmatch (List.map GLit pre ++ GStar :: List.map GLit suf) s = true <->
  exists mid, s = pre ++ mid ++ suf.
Proof.
  rewrite gmatch_lits. split.
  - intros (s' & -> & H). apply gmatch_star in H as (a & b & -> & H).
    apply gmatch_only_lits in H as ->. by exists a.
  - intros (mid & ->). exists (mid ++ suf). split; [done|].
    apply gmatch_star. exists mid, suf. split; [done|]. by apply gmatch_only_lits.
Qed.

Lemma fnmatch_instrument fn :
  fnmatch fn instrument_pattern = true <->
  exists mid, list_ascii_of_string fn = prefix_chars ++ mid ++ suffix_chars.
Proof.
  unfold fnmatch.
  change (translate instrument_pattern)
    with (List.map GLit prefix_chars ++ GStar :: List.map GLit suffix_chars).
  apply gmatch_pre_star_suf.
Qed.

(** ** Names that follow the convention *)

Lemma string_length_chars s : length (list_ascii_of_string s) = String.length s.
Proof. induction s as [|c s IH]; simpl; [done|]. by rewrite IH. Qed.

Lemma follows_convention_chars fn :
  follows_convention fn = true ->
  exists mid,
    list_ascii_of_string fn =
      prefix_chars ++ mid ++ list_ascii_of_string (fst (year_month_of fn))
        ++ "_"%char :: list_ascii_of_string (snd (year_month_of fn))
        ++ suffix_chars /\
    length (list_ascii_of_string (fst (year_month_of fn))) = 4%nat /\
    length (list_ascii_of_string (snd (year_month_of fn))) = 2%nat /\
    all_digits (fst (year_month_of fn)) = true /\
    all_digits (snd (year_month_of fn)) = true.
Proof.
  unfold follows_convention.
  destruct (year_month_of fn) as [y m]. simpl.
  rewrite !andb_true_iff, String.eqb_eq, !Nat.eqb_eq.
  intros [[[[Hfn Hy] Hm] Dy] Dm].
  exists (list_ascii_of_string (py_slice 11 (-11) fn)).
  rewrite !string_length_chars. repeat split; try done.
  rewrite Hfn at 1. by rewrite !list_ascii_of_string_app.
Qed.

Lemma digit_tok1 c : is_digit c = true -> tok1 c = GLit c /\ c <> "["%char.
Proof.
  unfold is_digit, tok1. rewrite andb_true_iff, !N.leb_le. intros [Hlo Hhi].
  assert (Hne : forall d, (N_of_ascii d < 48 \/ 57 < N_of_ascii d)%N -> c <> d).
  { intros d Hd ->. lia. }
  assert (H1 : c <> "*"%char) by (apply Hne; simpl; lia).
  assert (H2 : c <> "?"%char) by (apply Hne; simpl; lia).
  assert (H3 : c <> "["%char) by (apply Hne; simpl; lia).
  apply Ascii.eqb_neq in H1, H2. by rewrite H1, H2.
Qed.

Lemma digits_tok1 l :
  forallb is_digit l = true ->
  List.map tok1 l = List.map GLit l /\ ~ In "["%char l.
Proof.
  induction l as [|c l IH]; simpl; [tauto|].
  rewrite andb_true_iff. intros [Hc Hl].
  destruct (digit_tok1 c Hc) as [-> Hne]. destruct (IH Hl) as [-> Hno].
  split; [done|]. intros [H|H]; [by symmetry in H|done].
Qed.

(** The pattern of a period of digits: the prefix, a star and the literal
    suffix [YYYY_MM.txt]. *)
Lemma translate_period_pattern y m :
  all_digits y = true -> all_digits m = true ->
  translate (period_pattern (y, m)) =
    List.map GLit prefix_chars ++
    GStar :: List.map GLit (list_ascii_of_string y ++ "_"%char ::
                            list_ascii_of_string m ++ suffix_chars).
Proof.
  intros Dy Dm. unfold translate, period_pattern. simpl fst. simpl snd.
  rewrite !list_ascii_of_string_app.
  change (list_ascii_of_string "DUSTMONITOR*") with (prefix_chars ++ ["*"%char]).
  change (list_ascii_of_string "_") with ["_"%char].
  change (list_ascii_of_string ".txt") with suffix_chars.
  destruct (digits_tok1 _ Dy) as [Ty Ny]. destruct (digits_tok1 _ Dm) as [Tm Nm].
  rewrite translate_no_bracket.
  - rewrite <- app_assoc. rewrite !map_app. simpl List.map at 2.
    rewrite Ty. simpl. rewrite !map_app, Tm. simpl. done.
  - rewrite !in_app_iff. simpl. unfold prefix_chars, suffix_chars. simpl.
    intros H. decompose [or] H; try done.
Qed.

Lemma fnmatch_period_pattern fn y m :
  all_digits y = true -> all_digits m = true ->
  fnmatch fn (period_pattern (y, m)) = true <->
  exists mid, list_ascii_of_string fn =
                prefix_chars ++ mid ++ list_ascii_of_string y ++ "_"%char ::
                list_ascii_of_string m ++ suffix_chars.
Proof.
  intros Dy Dm. unfold fnmatch. rewrite translate_period_pattern by done.
  apply gmatch_pre_star_suf.
Qed.

(** A name that follows the convention matches the pattern of its own
    period. *)
Lemma follows_convention_self_match fn :
  follows_convention fn = true ->
  fnmatch fn (period_pattern (year_month_of fn)) = true.
Proof.
  intros Hc. apply follows_convention_chars in Hc as (mid & Hfn & _ & _ & Dy & Dm).
  destruct (year_month_of fn) as [y m]. cbn [fst snd] in *.
  apply fnmatch_period_pattern; [done..|]. by exists mid.
Qed.

(** Among names that follow the convention, the pattern of a period
    matches the names of that period only. *)
Lemma follows_convention_match_key fn fn' :
  follows_convention fn = true -> follows_convention fn' = true ->
  fnmatch fn' (period_pattern (year_month_of fn)) = true ->
  year_month_of fn' = year_month_of fn.
Proof.
  intros Hc Hc' Hm.
  apply follows_convention_chars in Hc as (mid & _ & Ly & Lm & Dy & Dm).
  apply follows_convention_chars in Hc' as (mid' & Hfn' & Ly' & Lm' & _ & _).
  destruct (year_month_of fn) as [y m], (year_month_of fn') as [y' m'].
  cbn [fst snd] in *.
  apply fnmatch_period_pattern in Hm as [a Ha]; [|done..].
  rewrite Hfn' in Ha. apply app_inv_head in Ha.
  apply app_inj_2 in Ha as [_ Ha].
  - apply app_inj_1 in Ha as [Hy Ha]; [|congruence].
    injection Ha as Ha. apply app_inj_1 in Ha as [Hm' _]; [|congruence].
    f_equal; by apply list_ascii_of_string_inj.
  - rewrite !length_app. simpl. rewrite !length_app. congruence.
Qed.

Lemma follows_convention_instrument fn :
  follows_convention fn = true -> fnmatch fn instrument_pattern = true.
Proof.
  intros Hc. apply follows_convention_chars in Hc as (mid & Hfn & _).
  apply fnmatch_instrument.
  exists (mid ++ list_ascii_of_string (fst (year_month_of fn)) ++
          "_"%char :: list_ascii_of_string (snd (year_month_of fn))).
  rewrite Hfn. by rewrite <- !app_assoc.
Qed.

(** ** The walk, when every search succeeds *)

Section take_through.
Context {A : Type} (p : A -> bool).

Lemma take_through_prefix l : exists rest, l = take_through p l ++ rest.
Proof.
  induction l as [|x l [rest IH]]; simpl; [by exists []|].
  destruct (p x); [by exists l|]. exists rest. simpl. by f_equal.
Qed.

Lemma take_through_head x l : exists r, take_through p (x :: l) = x :: r.
Proof. simpl. destruct (p x); eauto. Qed.

Lemma take_through_stop l :
  forall i x, take_through p l !! i = Some x -> p x = true ->
              S i = length (take_through p l).
Proof.
  induction l as [|y l IH]; intros i x; simpl; [done|].
  destruct (p y) eqn:Hy.
  - destruct i as [|i]; simpl; [done|]. by destruct i.
  - destruct i as [|i]; simpl.
    + intros [= ->] Hx. congruence.
    + intros Hi Hx. f_equal. by apply (IH i x).
Qed.

Lemma take_through_all l d :
  p (List.last (take_through p l) d) = false -> take_through p l = l.
Proof.
  induction l as [|x l IH]; simpl; [done|].
  destruct (p x) eqn:Hx; simpl; [congruence|].
  destruct l as [|y l]; [done|].
  destruct (take_through_head y l) as [r Hr]. rewrite Hr in *.
  intros H. f_equal. by apply IH.
Qed.
End take_through.

Lemma walk_periods_found {C} (fs : gmap string C) lp fns ks :
  forall fname acc,
    (forall k, In k ks -> is_Some (first_match fns k)) ->
    walk_periods fs lp fns fname acc ks =
      Ok (acc ++ take_through (present fs lp) (List.map (pick fns) ks)).
Proof.
  induction ks as [|k ks IH]; intros fname acc Hk; simpl.
  - by rewrite app_nil_r.
  - destruct (Hk k) as [f Hf]; [by left|].
    assert (Hp : pick fns k = f) by (unfold pick; by rewrite Hf).
    rewrite Hf, Hp. unfold present at 1.
    destruct (path_exists fs (local_file lp f)); [done|].
    rewrite IH by (intros k' Hk'; apply Hk; by right).
    by rewrite <- app_assoc.
Qed.

Lemma strongly_sorted_rev {A} (R : relation A) l :
  StronglySorted R l -> StronglySorted (flip R) (rev l).
Proof.
  induction 1 as [|x l Hs IH Hx]; simpl; [constructor|].
  apply StronglySorted_app_2; [|done|repeat constructor].
  intros x1 x2 H1 H2. apply list_elem_of_singleton in H2 as ->.
  rewrite list_elem_of_In, <- in_rev in H1.
  rewrite List.Forall_forall in Hx. by apply Hx.
Qed.

Lemma visited_periods_sorted fns :
  StronglySorted (flip period_le) (visited_periods fns).
Proof. apply strongly_sorted_rev, sort_periods_sorted. Qed.

Lemma visited_periods_In fns k :
  In k (visited_periods fns) <-> exists fn, In fn fns /\ year_month_of fn = k.
Proof.
  unfold visited_periods. rewrite <- in_rev, <- list_elem_of_In.
  rewrite sort_periods_perm, list_elem_of_In, in_map_iff.
  split; intros (fn & H1 & H2); exists fn; tauto.
Qed.

(** The search for a visited period finds a name of that period. *)
Lemma first_match_found fns k :
  forallb follows_convention fns = true ->
  In k (visited_periods fns) ->
  exists f, first_match fns k = Some f /\ In f fns /\ year_month_of f = k.
Proof.
  intros Hall Hk. rewrite forallb_forall in Hall.
  apply visited_periods_In in Hk as (fn & Hfn & <-).
  destruct (first_match fns (year_month_of fn)) as [f|] eqn:E.
  - exists f. apply find_some in E as [Hf Hm]. repeat split; try done.
    apply follows_convention_match_key; auto.
  - exfalso. eapply find_none in E; [|exact Hfn]. simpl in E.
    rewrite follows_convention_self_match in E; auto. discriminate.
Qed.

Lemma pick_periods fns :
  forallb follows_convention fns = true ->
  List.map year_month_of (List.map (pick fns) (visited_periods fns)) =
    visited_periods fns /\
  forall f, In f (List.map (pick fns) (visited_periods fns)) -> In f fns.
Proof.
  intros Hall.
  assert (H : forall k, In k (visited_periods fns) ->
                        year_month_of (pick fns k) = k /\ In (pick fns k) fns).
  { intros k Hk. destruct (first_match_found fns k Hall Hk) as (f & E & Hf & Hy).
    unfold pick. rewrite E. done. }
  split.
  - rewrite map_map. rewrite <- (map_id (visited_periods fns)) at 2.
    apply map_ext_in. intros k Hk. by apply H.
  - intros f Hf. apply in_map_iff in Hf as (k & <- & Hk). by apply H.
Qed.

(** What the selection returns when the matching names follow the
    convention: the names found for the visited periods, up to and
    including the first one that is in the local directory. *)
Lemma files_to_be_downloaded_conforming {C} (fs : gmap string C) foldercontent lp :
  matching_filenames foldercontent <> [] ->
  forallb follows_convention (matching_filenames foldercontent) = true ->
  files_to_be_downloaded fs foldercontent lp =
    Ok (Some (take_through (present fs lp)
                (List.map (pick (matching_filenames foldercontent))
                   (visited_periods (matching_filenames foldercontent))))).
Proof.
  intros Hne Hall. unfold files_to_be_downloaded.
  destruct (matching_filenames foldercontent) as [|fn fns] eqn:E; [done|].
  fold (visited_periods (fn :: fns)).
  rewrite walk_periods_found; [done|].
  intros k Hk. destruct (first_match_found _ k Hall Hk) as (f & -> & _). eauto.
Qed.

Lemma find_ext_in {A} (f g : A -> bool) l :
  (forall x, In x l -> f x = g x) -> List.find f l = List.find g l.
Proof.
  induction l as [|x l IH]; intros H; simpl; [done|].
  rewrite <- (H x) by (by left). destruct (f x); [done|].
  apply IH. intros y Hy. apply H. by right.
Qed.

(** Among names that follow the convention, the search by pattern is the
    search by period key. *)
Lemma first_match_by_key fns k :
  forallb follows_convention fns = true ->
  In k (visited_periods fns) ->
  first_match fns k =
    List.find (fun fn => bool_decide (year_month_of fn = k)) fns.
Proof.
  intros Hall Hk. pose proof Hall as Hall'. rewrite forallb_forall in Hall'.
  apply visited_periods_In in Hk as (fn0 & Hfn0 & <-).
  apply find_ext_in. intros fn Hfn.
  destruct (fnmatch fn (period_pattern (year_month_of fn0))) eqn:Em.
  - symmetry. apply bool_decide_eq_true.
    apply follows_convention_match_key; auto.
  - symmetry. apply bool_decide_eq_false. intros Heq.
    rewrite <- Heq, follows_convention_self_match in Em; auto. discriminate.
Qed.

Lemma last_In {A} (l : list A) d : l <> [] -> In (List.last l d) l.
Proof.
  induction l as [|x l IH]; [done|]. intros _.
  destruct l as [|y l]; [by left|]. right. apply IH. done.
Qed.

(** C1 (amended). For every remote listing with at least one name matching
    the instrument pattern, all of whose matching names follow the naming
    convention [DUSTMONITOR*YYYY_MM.txt], and for every state of the local
    directory, [files_to_be_downloaded] returns a non-empty list of names of
    the listing such that: its first element is of the newest remote period;
    the periods of its elements go from newest to oldest; only its last
    element can be in the local directory (the walk stops as soon as it has
    appended a name that is there, that name included); a period of the
    listing is left out only when the walk did stop at such a name and the
    period is not newer than the period of that name; no element is of a
    period older than a locally present element; and each element is the
    first name of its period in listing order. *)
Theorem files_to_be_downloaded_policy {C} (fs : gmap string C)
    (foldercontent : list string) (local_path : string) :
  let fns := matching_filenames foldercontent in
  fns <> [] ->
  forallb follows_convention fns = true ->
  exists newest older,
    let l := newest :: older in
    let stop := List.last l newest in
    files_to_be_downloaded fs foldercontent local_path = Ok (Some l) /\
    (forall f, In f l -> In f fns) /\
    (forall fn, In fn fns ->
                period_le (year_month_of fn) (year_month_of newest)) /\
    StronglySorted (flip period_le) (List.map year_month_of l) /\
    (forall i f, l !! i = Some f -> present fs local_path f = true ->
                 S i = length l) /\
    (forall fn, In fn fns ->
                In (year_month_of fn) (List.map year_month_of l) \/
                (present fs local_path stop = true /\
                 period_le (year_month_of fn) (year_month_of stop))) /\
    (forall f g, In f l -> In g l -> present fs local_path g = true ->
                 period_le (year_month_of g) (year_month_of f)) /\
    (forall f, In f l ->
               List.find (fun fn => bool_decide (year_month_of fn = year_month_of f))
                 fns = Some f).
Proof.
  intros fns Hne Hall.
  pose proof (files_to_be_downloaded_conforming fs foldercontent local_path Hne Hall)
    as Hres. fold fns in Hres.
  set (ks := visited_periods fns) in *.
  set (picks := List.map (pick fns) ks) in *.
  destruct (pick_periods fns Hall) as [Hkeys Hin]. fold ks picks in Hkeys, Hin.
  pose proof (visited_periods_sorted fns) as Hsorted. fold ks in Hsorted.
  destruct (take_through_prefix (present fs local_path) picks) as [rest Hrest].
  set (l := take_through (present fs local_path) picks) in *.
  assert (Hsplit : ks = List.map year_month_of l ++ List.map year_month_of rest).
  { rewrite <- Hkeys, Hrest at 1. by rewrite map_app. }
  assert (Hks : forall fn, In fn fns -> In (year_month_of fn) ks).
  { intros fn Hfn. apply visited_periods_In. eauto. }
  assert (Hl_in : forall f, In f l -> In f fns).
  { intros f Hf. apply Hin. rewrite Hrest. apply in_or_app. by left. }
  assert (Hl_sorted : StronglySorted (flip period_le) (List.map year_month_of l)).
  { rewrite Hsplit in Hsorted. by apply StronglySorted_app_1_l in Hsorted. }
  destruct picks as [|newest picks'] eqn:Epicks.
  { exfalso. destruct fns as [|fn fns'] eqn:Efns; [done|].
    assert (Hk : In (year_month_of fn) ks) by (apply Hks; by left).
    subst picks. destruct ks; [done|discriminate]. }
  destruct (take_through_head (present fs local_path) newest picks') as [older Hl].
  fold l in Hl.
  exists newest, older. cbn zeta. rewrite <- Hl.
  assert (Hlast_in : In (List.last l newest) l).
  { apply last_In. by rewrite Hl. }
  split; [done|]. split; [done|]. split; [|split; [done|]; split; [|split; [|split]]].
  - (* the first element is of the newest period *)
    intros fn Hfn. apply Hks in Hfn. rewrite Hsplit, Hl in Hfn, Hsorted.
    simpl in Hfn, Hsorted. apply StronglySorted_cons in Hsorted as [Hhd _].
    destruct Hfn as [<-|Hfn]; [done|].
    rewrite List.Forall_forall in Hhd. by apply Hhd.
  - apply take_through_stop.
  - (* a period is left out only below a stop *)
    intros fn Hfn. pose proof (Hks fn Hfn) as Hk.
    destruct (present fs local_path (List.last l newest)) eqn:Ep.
    + rewrite Hsplit in Hk. apply in_app_or in Hk as [Hk|Hk]; [by left|].
      right. split; [done|].
      rewrite Hsplit in Hsorted.
      apply (StronglySorted_app_1_elem_of _ _ _ (year_month_of (List.last l newest))
               (year_month_of fn)) in Hsorted; [done| |].
      * apply list_elem_of_In, in_map, Hlast_in.
      * by apply list_elem_of_In.
    + left. apply take_through_all in Ep. fold l in Ep.
      rewrite Ep, Hkeys. done.
  - (* nothing older than a locally present element *)
    intros f g Hf Hg Hp.
    apply list_elem_of_In, list_elem_of_lookup in Hf as [j Hj].
    apply list_elem_of_In, list_elem_of_lookup in Hg as [i Hi].
    pose proof (take_through_stop _ _ _ _ Hi Hp) as Hlen. fold l in Hlen.
    assert (Hji : (j <= i)%nat).
    { apply lookup_lt_Some in Hj. lia. }
    destruct (decide (j = i)) as [->|Hne'].
    { rewrite Hj in Hi. injection Hi as ->. done. }
    rewrite <- (take_drop_middle l i g Hi) in Hl_sorted, Hj.
    rewrite map_app in Hl_sorted. simpl in Hl_sorted.
    apply (StronglySorted_app_1_elem_of _ _ _ (year_month_of f) (year_month_of g))
      in Hl_sorted; [done| |].
    + apply list_elem_of_In, in_map.
      rewrite lookup_app_l in Hj.
      * apply list_elem_of_In. eapply list_elem_of_lookup_2. exact Hj.
      * rewrite length_take. apply lookup_lt_Some in Hi. lia.
    + by left.
  - (* each element is the first name of its period in the listing *)
    intros f Hf. assert (Hf' : In f (newest :: picks')).
    { rewrite Hrest. apply in_or_app. by left. }
    rewrite <- Epicks in Hf'.
    apply in_map_iff in Hf' as (k & Hpk & Hk).
    destruct (first_match_found fns k Hall Hk) as (f' & E & _ & Hy).
    assert (f' = f) as -> by (unfold pick in Hpk; by rewrite E in Hpk).
    rewrite Hy. rewrite <- first_match_by_key; done.
Qed.

Lemma files_to_be_downloaded_policy_witness :
  matching_filenames demo_listing <> [] /\
  forallb follows_convention (matching_filenames demo_listing) = true /\
  exists newest older,
    files_to_be_downloaded demo_directory demo_listing "/data"
      = Ok (Some (newest :: older)) /\
    forall fn, In fn (matching_filenames demo_listing) ->
               period_le (year_month_of fn) (year_month_of newest).
Proof.
  split; [by vm_compute|]. split; [by vm_compute|].
  destruct (files_to_be_downloaded_policy demo_directory demo_listing "/data")
    as (newest & older & H1 & _ & H2 & _); [by vm_compute|by vm_compute|].
  exists newest, older. split; [exact H1|exact H2].
Defined.

(** The selection on the sample listing, with the file of 2024-01 in the
    local directory: the three periods, newest first, 2024-01 once more. *)
Example files_to_be_downloaded_demo :
  files_to_be_downloaded demo_directory demo_listing "/data" =
    Ok (Some ["DUSTMONITOR_7777_2024_03.txt"; "DUSTMONITOR_7777_2024_02.txt";
              "DUSTMONITOR_7777_2024_01.txt"]).
Proof. by vm_compute. Qed.

(** C1 as stated fails. Both names of the listing match the instrument
    pattern; the newest period is [("?024", "03")], the period of the second
    name; the pattern built for that period, [DUSTMONITOR*?024_03.txt],
    matches the first name too, which comes first in the listing. The
    returned list starts with the name of the older period [("2024", "03")]
    and holds no name of the newest period. *)
Lemma files_to_be_downloaded_policy_counterexample :
  matching_filenames question_mark_listing
    = ["DUSTMONITOR_2024_03.txt"; "DUSTMONITOR_?024_03.txt"] /\
  year_month_of "DUSTMONITOR_?024_03.txt" = ("?024", "03") /\
  year_month_of "DUSTMONITOR_2024_03.txt" = ("2024", "03") /\
  period_le ("2024", "03") ("?024", "03") /\
  ~ period_le ("?024", "03") ("2024", "03") /\
  files_to_be_downloaded (∅ : directory) question_mark_listing "/data"
    = Ok (Some ["DUSTMONITOR_2024_03.txt"; "DUSTMONITOR_2024_03.txt"]).
Proof. repeat split; by vm_compute. Qed.

(** C10 (the code at the failing input). The listing holds one name,
    [DUSTMONITOR.txt], which matches the instrument pattern; its period key
    is [("MONI", "OR")], no name matches the pattern of that period, and the
    function raises [UnboundLocalError] instead of returning. *)
Theorem files_to_be_downloaded_raises :
  matching_filenames short_name_listing = ["DUSTMONITOR.txt"] /\
  year_month_of "DUSTMONITOR.txt" = ("MONI", "OR") /\
  first_match ["DUSTMONITOR.txt"] ("MONI", "OR") = None /\
  files_to_be_downloaded (∅ : directory) short_name_listing "/data"
    = Raise unbound_fname.
Proof. repeat split; by vm_compute. Qed.

(** C3 (the code at the failing input). Two names of the listing have the
    period key [("2024", "03")] and neither is in the local directory: the
    key is visited twice, and the returned list holds the first name twice. *)
Theorem files_to_be_downloaded_same_period :
  List.map year_month_of (matching_filenames same_period_listing)
    = [("2024", "03"); ("2024", "03")] /\
  visited_periods (matching_filenames same_period_listing)
    = [("2024", "03"); ("2024", "03")] /\
  files_to_be_downloaded (∅ : directory) same_period_listing "/data"
    = Ok (Some ["DUSTMONITOR_1111_2024_03.txt"; "DUSTMONITOR_1111_2024_03.txt"]).
Proof. repeat split; by vm_compute. Qed.

(* ================================================================== *)
(** * Properties of the conversion *)

(** ** Selecting columns by label, when labels are distinct *)

Lemma index_of_lookup cols :
  NoDup cols ->
  forall i l, cols !! i = Some l -> index_of l cols = Some i.
Proof.
  induction 1 as [|c cols Hc Hnd IH]; intros i l Hi; [done|].
  destruct i as [|i]; simpl in *.
  - injection Hi as ->. by rewrite String.eqb_refl.
  - destruct (String.eqb_spec c l) as [->|Hne].
    + exfalso. apply Hc. eapply list_elem_of_lookup_2. exact Hi.
    + by rewrite (IH i l Hi).
Qed.

Lemma indices_of_lookups cols labels start :
  NoDup cols ->
  (forall k l, labels !! k = Some l -> cols !! (start + k)%nat = Some l) ->
  indices_of labels cols = Ok (seq start (length labels)).
Proof.
  intros Hnd. revert start.
  induction labels as [|l labels IH]; intros start Hl; simpl; [done|].
  rewrite (index_of_lookup cols Hnd start l).
  - rewrite (IH (S start)); [done|].
    intros k l' Hk. replace (S start + k)%nat with (start + S k)%nat by lia.
    by apply Hl.
  - rewrite <- (Nat.add_0_r start). by apply Hl.
Qed.

Lemma list_slice_lookup {A} (i j : nat) (l : list A) k x :
  list_slice i j l !! k = Some x -> l !! (i + k)%nat = Some x.
Proof.
  unfold list_slice. intros H. apply lookup_take_Some in H as [H _].
  by rewrite lookup_drop in H.
Qed.

Lemma list_slice_length {A} (i j : nat) (l : list A) :
  (j <= length l)%nat -> length (list_slice i j l) = (j - i)%nat.
Proof. intros H. unfold list_slice. rewrite length_take, length_drop. lia. Qed.

(** With distinct labels, selecting the columns of a slice of the labels
    gives, for each row, the entries at the positions of the slice. *)
Lemma select_columns_slice (fr : frame) (i j : nat) :
  NoDup (columns fr) ->
  select_columns fr (list_slice i j (columns fr)) =
    Ok (List.map (fun r => List.map (fun k => nth k r nan)
                             (seq i (length (list_slice i j (columns fr)))))
          (rows fr)).
Proof.
  intros Hnd. unfold select_columns.
  rewrite (indices_of_lookups _ _ i Hnd); [done|].
  intros k l. apply list_slice_lookup.
Qed.

(** ** The packed error field *)

Lemma wrap_int64_mod_256 z : (wrap_int64 z) mod 256 = z mod 256.
Proof.
  unfold wrap_int64.
  rewrite Zminus_mod.
  rewrite (Z.mod_mod_divide _ (2 ^ 64) 256) by (by exists (2 ^ 56)).
  rewrite <- Zminus_mod. f_equal. lia.
Qed.

Lemma errors_of_row_eq f0 f1 f2 f3 f4 f5 f6 f7 :
  errors_of_row [f0; f1; f2; f3; f4; f5; f6; f7] =
    (1 * f0 + 2 * f1 + 4 * f2 + 8 * f3 + 16 * f4 + 32 * f5 + 64 * f6 + 128 * f7)
      mod 256.
Proof.
  unfold errors_of_row, astype_uint8. rewrite wrap_int64_mod_256.
  f_equal. unfold dot, error_weights. simpl. lia.
Qed.

Lemma ints_of_block_cells (block : list (list cell)) :
  (forall r c, In r block -> In c r -> exists z, c = CInt z) ->
  exists ints, ints_of_block block = Some ints /\
               block = List.map (List.map CInt) ints.
Proof.
  assert (Hrow : forall r : list cell,
             (forall c, In c r -> exists z, c = CInt z) ->
             exists zs, ints_of_cells r = Some zs /\ r = List.map CInt zs).
  { induction r as [|c r IH]; intros Hc; [by exists []|].
    destruct (Hc c) as [z ->]; [by left|].
    destruct IH as (zs & Hzs & ->); [intros; apply Hc; by right|].
    exists (z :: zs). simpl. by rewrite Hzs. }
  induction block as [|r block IH]; intros H; [by exists []|].
  destruct (Hrow r) as (zs & Hzs & ->); [intros; eapply H; [by left|done]|].
  destruct IH as (ints & Hints & ->); [intros; eapply H; [by right|done]|].
  exists (zs :: ints). simpl in *. by rewrite Hzs, Hints.
Qed.

Lemma map_CInt_inj zs zs' : List.map CInt zs = List.map CInt zs' -> zs = zs'.
Proof.
  revert zs'. induction zs as [|z zs IH]; intros [|z' zs']; simpl; try done.
  intros [= -> H]. f_equal. by apply IH.
Qed.

(** For flags that are 0 or 1 the sum is below 256: nothing is cut off,
    and bit [k] of the field is flag [k]. *)
Lemma errors_of_row_flags (b0 b1 b2 b3 b4 b5 b6 b7 : bool) :
  let f (b : bool) := if b then 1 else 0 in
  errors_of_row [f b0; f b1; f b2; f b3; f b4; f b5; f b6; f b7] =
    f b0 + 2 * f b1 + 4 * f b2 + 8 * f b3 + 16 * f b4 + 32 * f b5 + 64 * f b6
    + 128 * f b7 /\
  List.map (Z.testbit (errors_of_row [f b0; f b1; f b2; f b3; f b4; f b5; f b6; f b7]))
    [0; 1; 2; 3; 4; 5; 6; 7] = [b0; b1; b2; b3; b4; b5; b6; b7].
Proof.
  destruct b0, b1, b2, b3, b4, b5, b6, b7; by vm_compute.
Qed.

(** C8. For a parsed table with distinct labels and at least 19 columns
    whose columns 11 to 18 (counted from 0) hold integers, the [errors]
    variable has one value per row, and the value of a row whose flags are
    [f0] ... [f7] is [(1*f0 + 2*f1 + 4*f2 + 8*f3 + 16*f4 + 32*f5 + 64*f6 +
    128*f7) mod 256]; a row with exactly the flags of weight 1 and 8 set
    gives 9. *)
Theorem errors_packed_bit_field `{Libraries} (fr : frame) :
  NoDup (columns fr) ->
  (19 <= length (columns fr))%nat ->
  (forall r k, In r (rows fr) -> (11 <= k < 19)%nat ->
               exists z, nth k r nan = CInt z) ->
  exists errs,
    errors_values fr = Ok (List.map CInt errs) /\
    length errs = length (rows fr) /\
    (forall i r f0 f1 f2 f3 f4 f5 f6 f7,
        rows fr !! i = Some r ->
        List.map (fun k => nth k r nan) (seq 11 8)
          = List.map CInt [f0; f1; f2; f3; f4; f5; f6; f7] ->
        errs !! i =
          Some ((1 * f0 + 2 * f1 + 4 * f2 + 8 * f3 + 16 * f4 + 32 * f5
                 + 64 * f6 + 128 * f7) mod 256)) /\
    errors_of_row [1; 0; 0; 1; 0; 0; 0; 0] = 9.
Proof.
  intros Hnd Hlen Hint. unfold errors_values.
  rewrite select_columns_slice by done.
  rewrite list_slice_length by done.
  change (19 - 11)%nat with 8%nat.
  set (block := List.map (fun r => List.map (fun k => nth k r nan) (seq 11 8)) (rows fr)).
  cbn [mbind result_bind negb Nat.eqb].
  destruct (ints_of_block_cells block) as (ints & Hints & Hblock).
  { intros r' c Hr' Hc. apply in_map_iff in Hr' as (r & <- & Hr).
    apply in_map_iff in Hc as (k & <- & Hk). apply in_seq in Hk.
    apply Hint; [done|lia]. }
  rewrite Hints.
  exists (List.map errors_of_row ints). rewrite map_map.
  assert (Hl : length ints = length (rows fr)).
  { apply (f_equal (@length _)) in Hblock. unfold block in Hblock.
    by rewrite !length_map in Hblock. }
  split; [done|]. split; [by rewrite length_map|]. split; [|by vm_compute].
  intros i r f0 f1 f2 f3 f4 f5 f6 f7 Hi Hf.
  assert (Hb : block !! i = Some (List.map CInt [f0; f1; f2; f3; f4; f5; f6; f7])).
  { unfold block. rewrite <- Hf. change List.map with (@fmap list _) at 1.
    rewrite list_lookup_fmap, Hi. done. }
  rewrite Hblock in Hb. change (List.map (List.map CInt) ints)
    with (List.map CInt <$> ints) in Hb.
  rewrite list_lookup_fmap in Hb.
  destruct (ints !! i) as [zs|] eqn:Ezs; [|done].
  injection Hb as Hb.
  apply (map_CInt_inj zs [f0; f1; f2; f3; f4; f5; f6; f7]) in Hb as ->.
  change (List.map errors_of_row ints) with (errors_of_row <$> ints).
  rewrite list_lookup_fmap, Ezs. simpl. by rewrite errors_of_row_eq.
Qed.

Lemma errors_packed_bit_field_witness :
  NoDup (columns demo_frame) /\
  (19 <= length (columns demo_frame))%nat /\
  (forall r k, In r (rows demo_frame) -> (11 <= k < 19)%nat ->
               exists z, nth k r nan = CInt z) /\
  exists errs, errors_values demo_frame = Ok (List.map CInt errs) /\
               errs !! 0%nat = Some 9.
Proof.
  assert (H1 : NoDup (columns demo_frame)).
  { apply (bool_decide_unpack _). by vm_compute. }
  assert (H2 : (19 <= length (columns demo_frame))%nat).
  { vm_compute. lia. }
  assert (H3 : forall r k, In r (rows demo_frame) -> (11 <= k < 19)%nat ->
                           exists z, nth k r nan = CInt z).
  { intros r k Hr Hk. vm_compute in Hr. destruct Hr as [<-|[]].
    do 11 (destruct k as [|k]; [lia|]).
    do 8 (destruct k as [|k]; [eexists; reflexivity|]). lia. }
  split; [exact H1|]. split; [exact H2|]. split; [exact H3|].
  destruct (errors_packed_bit_field demo_frame H1 H2 H3)
    as (errs & He & _ & Hrow & _).
  exists errs. split; [exact He|].
  assert (Er : rows demo_frame !! 0%nat = Some (nth 0 (rows demo_frame) []))
    by (by vm_compute).
  assert (E9 : Some ((1 * 1 + 2 * 0 + 4 * 0 + 8 * 1 + 16 * 0 + 32 * 0 + 64 * 0
                      + 128 * 0) mod 256) = Some 9) by (by vm_compute).
  rewrite <- E9. apply (Hrow 0%nat _ 1 0 0 1 0 0 0 0 Er). by vm_compute.
Defined.

(** ** The size channels *)






(* ================================================================== *)
(** * Properties of runs *)

Section keeps.
Context (P : string -> Prop).

Lemma keeps_pure {A} (m : M A) :
  (forall w, exists r, m w = (r, w)) -> keeps P m.
Proof.
  intros Hm w r w' E. destruct (Hm w) as [r' E']. rewrite E' in E.
  injection E as <- <-. exists []. split; [done|].
  intros d [<-|[]] p _. done.
Qed.

Lemma keeps_same_files {A} (m : M A) :
  (forall w r w', m w = (r, w') -> files w' = files w /\ history w' = history w) ->
  keeps P m.
Proof.
  intros Hm w r w' E. destruct (Hm w r w' E) as [Hf Hh].
  exists []. split; [done|]. intros d [<-|[]] p _. by rewrite Hf.
Qed.

Lemma keeps_bind {A B} (m : M A) (f : A -> M B) :
  keeps P m -> (forall a, keeps P (f a)) -> keeps P (m ≫= f).
Proof.
  intros Hm Hf w r w' E. unfold mbind, M_bind in E.
  destruct (m w) as [[a|e] w1] eqn:E1.
  - destruct (Hm w _ _ E1) as (new1 & Hh1 & Hd1).
    destruct (Hf a w1 _ _ E) as (new2 & Hh2 & Hd2).
    exists (new2 ++ new1). split; [by rewrite Hh2, Hh1, app_assoc|].
    intros d Hd p Hp.
    assert (Hcase : In d (files w' :: new2) \/ In d new1).
    { destruct Hd as [<-|Hd]; [left; by left|].
      apply in_app_or in Hd as [Hd|Hd]; [left; by right|by right]. }
    destruct Hcase as [Hd'|Hd'].
    + rewrite (Hd2 d Hd' p Hp). apply Hd1; [by left|done].
    + apply Hd1; [by right|done].
  - injection E as <- <-. by apply (Hm w _ _ E1).
Qed.

Lemma keeps_ret {A} (a : A) : keeps P (mret a).
Proof. apply keeps_pure. intros w. by exists (Ok a). Qed.

Lemma keeps_raise {A} (e : exn) : keeps P (raise e : M A).
Proof. apply keeps_pure. intros w. by exists (Raise e). Qed.

Lemma keeps_lift {A} (r : result A) : keeps P (lift r).
Proof. apply keeps_pure. intros w. by exists r. Qed.

Lemma keeps_time : keeps P time.
Proof. apply keeps_pure. intros w. by exists (Ok (now w)). Qed.

Lemma keeps_print line : keeps P (print line).
Proof. apply keeps_same_files. intros w r w' [= <- <-]. done. Qed.

Lemma keeps_wait d : keeps P (wait d).
Proof.
  apply keeps_same_files. intros w r w'. unfold wait.
  destruct (alarm w) as [[deadline e]|]; [destruct (_ <=? _)|];
    intros [= <- <-]; done.
Qed.

Lemma keeps_sleep d : keeps P (sleep d).
Proof. unfold sleep. destruct (d <? 0); [apply keeps_raise|apply keeps_wait]. Qed.

Lemma keeps_signal_alarm s e : keeps P (signal_alarm s e).
Proof. apply keeps_same_files. intros w r w' [= <- <-]. done. Qed.

Lemma keeps_try_except {A} (body : M A) (handler : exn -> M A) :
  keeps P body -> (forall e, keeps P (handler e)) ->
  keeps P (try_except body handler).
Proof.
  intros Hb Hh w r w' E. unfold try_except in E.
  destruct (body w) as [[a|e] w1] eqn:E1.
  - injection E as <- <-. by apply (Hb w _ _ E1).
  - destruct (Hb w _ _ E1) as (new1 & Hh1 & Hd1).
    destruct (Hh e w1 _ _ E) as (new2 & Hh2 & Hd2).
    exists (new2 ++ new1). split; [by rewrite Hh2, Hh1, app_assoc|].
    intros d Hd p Hp.
    assert (Hcase : In d (files w' :: new2) \/ In d new1).
    { destruct Hd as [<-|Hd]; [left; by left|].
      apply in_app_or in Hd as [Hd|Hd]; [left; by right|by right]. }
    destruct Hcase as [Hd'|Hd'].
    + rewrite (Hd2 d Hd' p Hp). apply Hd1; [by left|done].
    + apply Hd1; [by right|done].
Qed.

Lemma keeps_try_finally {A} (body : M A) (cleanup : M unit) :
  keeps P body ->
  (forall w r w', cleanup w = (r, w') ->
                  files w' = files w /\ history w' = history w) ->
  keeps P (try_finally body cleanup).
Proof.
  intros Hb Hc w r w' E. unfold try_finally in E.
  destruct (body w) as [r1 w1] eqn:E1.
  destruct (cleanup w1) as [r2 w2] eqn:E2.
  destruct (Hc _ _ _ E2) as [Hf2 Hh2].
  destruct (Hb w _ _ E1) as (new1 & Hh1 & Hd1).
  assert (w' = w2) as -> by (destruct r2; by injection E).
  exists new1. rewrite Hh2, Hf2. done.
Qed.

Lemma keeps_set_files (path : string) (f : World -> content) :
  P path ->
  keeps P (fun w => (Ok tt, set_files (<[path := f w]> (files w)) w)).
Proof.
  intros HP w r w' [= <- <-]. simpl.
  exists [<[path := f w]> (files w)]. split; [done|].
  intros d Hd p Hp.
  assert (d = <[path := f w]> (files w)) as ->
      by (destruct Hd as [<-|[<-|[]]]; done).
  apply lookup_insert_ne. by intros ->.
Qed.

Lemma keeps_open_wb path : P path -> keeps P (open_wb path).
Proof. intros HP. by apply (keeps_set_files path (fun _ => RawFile "")). Qed.

Lemma keeps_write_bytes path data : P path -> keeps P (write_bytes path data).
Proof.
  intros HP. unfold write_bytes.
  by apply (keeps_set_files path
              (fun w => RawFile (match files w !! path with
                                 | Some (RawFile b) => b
                                 | _ => ""
                                 end +:+ data))).
Qed.

Lemma keeps_update_dataset path f : P path -> keeps P (update_dataset path f).
Proof.
  intros HP w r w' E. unfold update_dataset in E.
  destruct (files w !! path) as [[b|ds]|] eqn:Ef.
  - injection E as <- <-. exists []. split; [done|]. by intros d [<-|[]] p _.
  - revert E. apply (keeps_set_files path (fun _ => NetCDF (f ds)) HP).
  - injection E as <- <-. exists []. split; [done|]. by intros d [<-|[]] p _.
Qed.
End keeps.

(** ** The transfer *)

Lemma string_app_assoc (a b c : string) : (a +:+ b) +:+ c = a +:+ (b +:+ c).
Proof.
  induction a as [|x a IH]; [done|].
  change (String x ((a +:+ b) +:+ c) = String x (a +:+ (b +:+ c))).
  by rewrite IH.
Qed.

Lemma string_app_nil_r (a : string) : a +:+ "" = a.
Proof.
  induction a as [|x a IH]; [done|].
  change (String x (a +:+ "") = String x a). by rewrite IH.
Qed.

Lemma wait_same_files d w r w' :
  wait d w = (r, w') -> files w' = files w /\ history w' = history w.
Proof.
  unfold wait. destruct (alarm w) as [[deadline e]|]; [destruct (_ <=? _)|];
    intros [= <- <-]; done.
Qed.

Lemma keeps_retr_blocks stg chunks :
  keeps (fun p => p = stg) (retr_blocks chunks (write_bytes stg)).
Proof.
  induction chunks as [|[d data] chunks IH]; simpl; [apply keeps_ret|].
  apply keeps_bind; [apply keeps_wait|]. intros _.
  apply keeps_bind; [by apply keeps_write_bytes|]. intros _. done.
Qed.

Lemma keeps_retrbinary stg script :
  keeps (fun p => p = stg) (retrbinary script (write_bytes stg)).
Proof.
  unfold retrbinary.
  apply keeps_bind; [apply keeps_retr_blocks|]. intros _.
  apply keeps_bind; [apply keeps_wait|]. intros _.
  destruct (retr_error script); [apply keeps_raise|apply keeps_ret].
Qed.

Lemma signal_alarm_same_files s e w r w' :
  signal_alarm s e w = (r, w') -> files w' = files w /\ history w' = history w.
Proof. by intros [= <- <-]. Qed.

Lemma keeps_get_ftp_file ftpobj remote stg :
  keeps (fun p => p = stg) (_get_ftp_file ftpobj remote stg).
Proof.
  unfold _get_ftp_file, timeout.
  apply keeps_bind; [apply keeps_signal_alarm|]. intros _.
  apply keeps_try_finally; [|apply signal_alarm_same_files].
  apply keeps_bind; [by apply keeps_open_wb|]. intros _.
  apply keeps_retrbinary.
Qed.

(** What the blocks written so far amount to. *)
Lemma retr_blocks_content stg chunks :
  forall w b r w',
    files w !! stg = Some (RawFile b) ->
    retr_blocks chunks (write_bytes stg) w = (r, w') ->
    exists got, files w' !! stg = Some (RawFile (b +:+ got)) /\
                (r = Ok tt -> got = fold_right String.append "" (List.map snd chunks)).
Proof.
  induction chunks as [|[d data] chunks IH]; intros w b r w' Hb E; simpl in E.
  - injection E as <- <-. exists "". by rewrite string_app_nil_r.
  - unfold mbind, M_bind in E.
    destruct (wait d w) as [[[]|e] w1] eqn:E1.
    + assert (Hf1 : files w1 = files w).
      { by destruct (wait_same_files _ _ _ _ E1). }
      unfold write_bytes in E at 1. rewrite Hf1, Hb in E.
      apply IH with (b := b +:+ data) in E as (got & Hgot & Hok).
      * exists (data +:+ got). rewrite <- string_app_assoc. split; [done|].
        intros Hr. simpl. by rewrite Hok.
      * simpl. by rewrite lookup_insert_eq.
    + injection E as <- <-. exists "". rewrite string_app_nil_r. split; [|done].
      destruct (wait_same_files _ _ _ _ E1) as [-> _]. done.
Qed.

Lemma write_bytes_clock path data w :
  exists w', write_bytes path data w = (Ok tt, w') /\
             now w' = now w /\ alarm w' = alarm w.
Proof. eexists. split; [reflexivity|]. done. Qed.

(** The blocks of a transfer under a pending alarm: either all of them
    arrive before the deadline, or the handler interrupts the transfer. *)
Lemma retr_blocks_timing stg chunks D e :
  forall w r w',
    alarm w = Some (D, e) -> now w < D ->
    retr_blocks chunks (write_bytes stg) w = (r, w') ->
    let total := fold_right Z.add 0 (List.map fst chunks) in
    ((r = Ok tt /\ now w' = now w + total /\ alarm w' = Some (D, e) /\ now w' < D)
     \/ (r = Raise e /\ alarm w' = None)) /\
    (Forall (fun d => 0 <= d) (List.map fst chunks) -> now w + total < D ->
     r = Ok tt).
Proof.
  induction chunks as [|[d data] chunks IH]; intros w r w' Ha Hn E; simpl in *.
  - injection E as <- <-. split; [left; repeat split; [lia|done..]|done].
  - unfold mbind, M_bind in E. unfold wait in E at 1. rewrite Ha in E.
    destruct (D <=? now w + d) eqn:Ed.
    + injection E as <- <-. apply Z.leb_le in Ed. split; [by right|].
      intros Hpos Hlt. apply Forall_cons in Hpos as [Hd Hpos].
      assert (0 <= fold_right Z.add 0 (List.map fst chunks)).
      { clear -Hpos. induction Hpos; simpl; lia. }
      lia.
    + apply Z.leb_gt in Ed.
      destruct (write_bytes_clock stg data (set_now (now w + d) w))
        as (w1 & E1 & Hn1 & Ha1).
      rewrite E1 in E. simpl in Hn1, Ha1.
      destruct (IH w1 r w') as [Hcase Hok]; [congruence|lia|done|].
      split.
      * destruct Hcase as [(-> & Hn' & Ha' & Hlt)|[-> Ha']]; [left|by right].
        repeat split; [lia|done|done].
      * intros Hpos Hlt. apply Forall_cons in Hpos as [Hd Hpos].
        apply Hok; [done|lia].
Qed.

Lemma retrbinary_outcome stg script D e w b r w' :
  alarm w = Some (D, e) -> now w < D ->
  files w !! stg = Some (RawFile b) ->
  retrbinary script (write_bytes stg) w = (r, w') ->
  (exists got, files w' !! stg = Some (RawFile (b +:+ got)) /\
               (r = Ok tt -> got = retr_bytes script)) /\
  (D <= now w + retr_duration script -> r = Raise e) /\
  (delays_ok script -> now w + retr_duration script < D ->
   r = match retr_error script with
       | None => Ok tt
       | Some err => Raise err
       end).
Proof.
  intros Ha Hn Hb E. unfold retrbinary in E. unfold mbind, M_bind in E.
  destruct (retr_blocks (retr_chunks script) (write_bytes stg) w)
    as [r1 w1] eqn:E1.
  destruct (retr_blocks_content _ _ _ _ _ _ Hb E1) as (got & Hgot & Hgot_ok).
  destruct (retr_blocks_timing _ _ _ _ _ _ _ Ha Hn E1) as [Hcase Hok].
  unfold retr_duration, retr_bytes.
  destruct Hcase as [(-> & Hn1 & Ha1 & Hlt1)|[-> Ha1]].
  - unfold wait in E. rewrite Ha1 in E.
    destruct (D <=? now w1 + retr_last_delay script) eqn:Ed.
    + injection E as <- <-. apply Z.leb_le in Ed. simpl.
      split; [exists got; split; [done|done]|]. split; [done|].
      intros [_ Hlast] Hlt. lia.
    + apply Z.leb_gt in Ed.
      assert (Hr : r = match retr_error script with
                       | None => Ok tt
                       | Some err => Raise err
                       end /\ files w' = files w1).
      { destruct (retr_error script); by injection E as <- <-. }
      destruct Hr as [-> Hf]. rewrite Hf.
      split; [exists got; split; [done|by intros; apply Hgot_ok]|].
      split; [intros; lia|done].
  - injection E as <- <-.
    split; [exists got; split; [done|done]|]. split; [done|].
    intros [Hpos Hlast] Hlt. exfalso.
    assert (Raise e = Ok tt :> result unit); [|done].
    apply Hok; [done|lia].
Qed.

(** The guarded transfer: the staging file exists afterwards in every
    case; it holds all the bytes when the transfer succeeds; the transfer
    is interrupted when it lasts [MaxTimeAllowed] seconds or more, and runs
    to its own end otherwise. *)
Lemma get_ftp_file_outcome ftpobj remote stg w r w1 :
  _get_ftp_file ftpobj remote stg w = (r, w1) ->
  let script := ftp_retr ftpobj remote in
  (exists got, files w1 !! stg = Some (RawFile got) /\
               (r = Ok tt -> got = retr_bytes script)) /\
  (milliseconds MaxTimeAllowed <= retr_duration script -> r = Raise download_timeout) /\
  (delays_ok script -> retr_duration script < milliseconds MaxTimeAllowed ->
   r = match retr_error script with
       | None => Ok tt
       | Some err => Raise err
       end) /\
  alarm w1 = None.
Proof.
  intros E script. unfold _get_ftp_file, timeout in E.
  fold download_timeout in E.
  set (w0 := set_alarm (Some (now w + milliseconds MaxTimeAllowed, download_timeout)) w).
  set (wo := set_files (<[stg := RawFile ""]> (files w0)) w0).
  assert (E' : try_finally (retrbinary script (write_bytes stg))
                 (signal_alarm 0 download_timeout) wo = (r, w1)) by exact E.
  clear E. unfold try_finally in E'.
  destruct (retrbinary script (write_bytes stg) wo) as [r1 w1'] eqn:E1.
  simpl in E'. injection E' as <- <-.
  destruct (retrbinary_outcome stg script (now w + milliseconds MaxTimeAllowed)
              download_timeout wo "" r1 w1') as ((got & Hgot & Hok) & Hto & Hfin);
    [done|simpl; unfold milliseconds, MaxTimeAllowed; lia| |done|].
  { simpl. by rewrite lookup_insert_eq. }
  simpl in Hto, Hfin. repeat split.
  - exists got. done.
  - intros H. apply Hto. lia.
  - intros Hd H. apply Hfin; [done|lia].
Qed.

(** ** Final names and staging names *)

Lemma string_app_inv_head (a b c : string) : a +:+ b = a +:+ c -> b = c.
Proof.
  induction a as [|x a IH]; [done|].
  change (String x (a +:+ b) = String x (a +:+ c) -> b = c).
  intros [= H]. by apply IH.
Qed.

Lemma local_file_inj lp a b : local_file lp a = local_file lp b -> a = b.
Proof.
  unfold local_file. intros H. apply string_app_inv_head in H.
  by apply string_app_inv_head in H.
Qed.

Lemma instrument_name_head fn :
  fnmatch fn instrument_pattern = true ->
  exists rest, fn = String "D" rest /\ (14 <= String.length rest)%nat.
Proof.
  intros H. apply fnmatch_instrument in H as [mid Hfn].
  destruct fn as [|c rest]; [done|].
  simpl in Hfn. injection Hfn as -> Hrest.
  exists rest. split; [done|].
  rewrite <- string_length_chars, Hrest. simpl. rewrite length_app. simpl. lia.
Qed.

Lemma staging_txt_not_final lp fn :
  fnmatch fn instrument_pattern = true -> local_file lp fn <> staging_txt lp.
Proof.
  intros H Heq. apply local_file_inj in Heq.
  apply instrument_name_head in H as (rest & -> & _). discriminate.
Qed.

Lemma staging_nc_not_final lp fn :
  fnmatch fn instrument_pattern = true ->
  local_file lp (py_slice_to (-4) fn +:+ ".nc") <> staging_nc lp.
Proof.
  intros H Heq. apply local_file_inj in Heq.
  apply instrument_name_head in H as (rest & -> & Hlen).
  assert (Hs : exists s, py_slice_to (-4) (String "D" rest) = String "D" s).
  { unfold py_slice_to, py_slice, slice_bound, py_len. simpl.
    rewrite Z.max_l by lia.
    replace (Z.to_nat (Z.of_nat (S (String.length rest)) + -4
                       - 0 `min` Z.of_nat (S (String.length rest))))
      with (S (String.length rest - 4)) by lia.
    eauto. }
  destruct Hs as [s Hs]. rewrite Hs in Heq.
  change (String "D" (s +:+ ".nc") = "temporary_dust_file.nc") in Heq.
  discriminate.
Qed.

(** ** Download *)

Lemma download_publishes_atomically ftpobj lp filename w :
  local_file lp filename <> staging_txt lp ->
  publishes_atomically (local_file lp filename)
    (fun c => c = RawFile (retr_bytes (ftp_retr ftpobj filename)))
    w (download_data_file ftpobj lp filename w).
Proof.
  intros Hne. unfold publishes_atomically, download_data_file, try_except_of.
  unfold mbind, M_bind.
  destruct (_get_ftp_file ftpobj filename (staging_txt lp) w) as [r1 w1] eqn:E1.
  destruct (keeps_get_ftp_file _ _ _ _ _ _ E1) as (new & Hh & Hd).
  destruct (get_ftp_file_outcome _ _ _ _ _ _ E1) as ((got & Hgot & Hok) & _).
  assert (Hagree : Forall (fun d : directory =>
             d !! local_file lp filename = files w !! local_file lp filename)
            (files w1 :: new)).
  { apply List.Forall_forall. intros d Hin. by apply Hd. }
  destruct r1 as [[]|e].
  - unfold os_rename. rewrite Hgot. simpl.
    exists (<[local_file lp filename := RawFile got]>
              (delete (staging_txt lp) (files w1)) :: new).
    split; [by rewrite Hh|].
    eexists new, _. split; [done|]. split; [apply lookup_insert_eq|].
    split; [by rewrite Hok|]. by apply Forall_cons in Hagree as [_ ?].
  - assert (Hout : (if decide (exn_class e = FTPTimeoutError)
                    then (raise e : M unit) w1 else (Raise e, w1))
                   = (Raise e, w1))
      by (by destruct (decide _)).
    rewrite Hout. simpl. exists new. split; [done|].
    apply Forall_cons in Hagree as [? ?]. done.
Qed.

(** C6 (amended). The deadline of a single-file fetch is 180 seconds. When
    the transfer lasts that long or longer, [download_data_file] raises
    [FTPTimeoutError] to its caller, the final name is left as it was before
    the fetch (absent if it was absent, with its previous content if it was
    there), and the staging file is left behind. A transfer that ends
    without error before the deadline leaves the complete file at the final
    name, no staging file, and every other path as it was. *)
Theorem download_timeout_and_success ftpobj lp filename w :
  let script := ftp_retr ftpobj filename in
  let out := download_data_file ftpobj lp filename w in
  fnmatch filename instrument_pattern = true ->
  MaxTimeAllowed = 180 /\
  (milliseconds MaxTimeAllowed <= retr_duration script ->
     fst out = Raise download_timeout /\
     exn_class download_timeout = FTPTimeoutError /\
     files (snd out) !! local_file lp filename = files w !! local_file lp filename /\
     is_Some (files (snd out) !! staging_txt lp)) /\
  (delays_ok script -> retr_duration script < milliseconds MaxTimeAllowed ->
   retr_error script = None ->
     fst out = Ok tt /\
     files (snd out) !! local_file lp filename = Some (RawFile (retr_bytes script)) /\
     files (snd out) !! staging_txt lp = None /\
     forall p, p <> local_file lp filename -> p <> staging_txt lp ->
               files (snd out) !! p = files w !! p).
Proof.
  intros script out Hm. split; [done|].
  pose proof (staging_txt_not_final lp filename Hm) as Hne.
  subst out. unfold download_data_file, try_except_of, mbind, M_bind.
  destruct (_get_ftp_file ftpobj filename (staging_txt lp) w) as [r1 w1] eqn:E1.
  destruct (keeps_get_ftp_file _ _ _ _ _ _ E1) as (new & Hh & Hd).
  destruct (get_ftp_file_outcome _ _ _ _ _ _ E1)
    as ((got & Hgot & Hok) & Hto & Hfin & _).
  fold script in Hok, Hto, Hfin.
  split.
  - intros Hlong. rewrite (Hto Hlong). simpl.
    split; [done|]. split; [done|]. split; [|by rewrite Hgot].
    apply Hd; [by left|done].
  - intros Hdel Hshort Hnoerr. rewrite (Hfin Hdel Hshort), Hnoerr in *.
    unfold os_rename. rewrite Hgot. simpl.
    split; [done|]. split; [|split].
    + rewrite lookup_insert_eq. by rewrite Hok.
    + rewrite lookup_insert_ne by done. apply lookup_delete_eq.
    + intros p Hp1 Hp2. rewrite lookup_insert_ne by done.
      rewrite lookup_delete_ne by done. apply Hd; [by left|done].
Qed.

Lemma download_timeout_and_success_witness :
  fnmatch "DUSTMONITOR_7777_2024_03.txt" instrument_pattern = true /\
  (milliseconds MaxTimeAllowed
     <= retr_duration (ftp_retr slow_ftp "DUSTMONITOR_7777_2024_03.txt")) /\
  let out := download_data_file slow_ftp "/data" "DUSTMONITOR_7777_2024_03.txt"
               demo_world in
  fst out = Raise download_timeout /\
  files (snd out) !! "/data/DUSTMONITOR_7777_2024_03.txt" = None /\
  files (snd out) !! "/data/temporary_dust_file.txt" = Some (RawFile "first half, ").
Proof.
  assert (H1 : fnmatch "DUSTMONITOR_7777_2024_03.txt" instrument_pattern = true)
    by reflexivity.
  assert (H2 : milliseconds MaxTimeAllowed
               <= retr_duration (ftp_retr slow_ftp "DUSTMONITOR_7777_2024_03.txt"))
    by (by vm_compute).
  split; [exact H1|]. split; [exact H2|].
  destruct (download_timeout_and_success slow_ftp "/data"
              "DUSTMONITOR_7777_2024_03.txt" demo_world H1) as (_ & Hlong & _).
  destruct (Hlong H2) as (Hr & _ & _ & _).
  split; [exact Hr|]. split; by vm_compute.
Defined.

(** Every name handed to a fetch and a conversion matches the instrument
    pattern. *)
Lemma selected_names_match {C} (fs : gmap string C) foldercontent lp l f :
  files_to_be_downloaded fs foldercontent lp = Ok (Some l) ->
  In f l -> fnmatch f instrument_pattern = true.
Proof.
  intros Hl Hf. apply files_to_be_downloaded_some in Hl as [_ Hin].
  by apply Hin, matching_filenames_spec in Hf as [_ ?].
Qed.

(** The two outcomes on the sample station. *)
Example download_demo_success :
  let out := download_data_file quick_ftp "/data" "DUSTMONITOR_7777_2024_03.txt"
               demo_world in
  fst out = Ok tt /\
  files (snd out) !! "/data/DUSTMONITOR_7777_2024_03.txt"
    = Some (RawFile "first half, second half") /\
  files (snd out) !! "/data/temporary_dust_file.txt" = None /\
  now (snd out) = 2010.
Proof. repeat split; by vm_compute. Qed.

(** C6 as stated fails: the file of 2024-01 is in the local directory, as
    it is whenever the walk over the periods stopped at it; its fetch times
    out, and afterwards the final name is not absent: it holds the previous
    content. *)
Lemma download_timeout_counterexample :
  let out := download_data_file slow_ftp "/data" "DUSTMONITOR_7777_2024_01.txt"
               demo_world in
  milliseconds MaxTimeAllowed
    <= retr_duration (ftp_retr slow_ftp "DUSTMONITOR_7777_2024_01.txt") /\
  raises (fst out) FTPTimeoutError /\
  files (snd out) !! "/data/DUSTMONITOR_7777_2024_01.txt" = Some (RawFile "january") /\
  files (snd out) !! "/data/DUSTMONITOR_7777_2024_01.txt" <> None.
Proof. repeat split; by vm_compute. Qed.

(** ** Conversion *)

Lemma convert_stage_then_rename `{Libraries} lp filename w :
  convert_to_netCFD4 lp filename w =
    (_ ← stage_artifact lp filename;
     os_rename (staging_nc lp)
       (local_file lp (py_slice_to (-4) filename +:+ ".nc"))) w.
Proof.
  unfold convert_to_netCFD4, stage_artifact, mbind, M_bind.
  repeat match goal with
         | |- context [match ?m ?w with _ => _ end] =>
             lazymatch m with
             | os_rename _ _ => fail
             | _ => destruct (m w) as [[?|?] ?]; try reflexivity
             end
         end.
Qed.

Lemma update_dataset_ok nc f w ds :
  files w !! nc = Some (NetCDF ds) ->
  update_dataset nc f w = (Ok tt, set_files (<[nc := NetCDF (f ds)]> (files w)) w).
Proof. intros Hf. unfold update_dataset. by rewrite Hf. Qed.

Lemma set_data_other name data vars :
  ~ In name (List.map nc_name vars) ->
  List.map (set_data name data) vars = vars.
Proof.
  induction vars as [|v vars IH]; simpl; [done|]. intros Hn.
  rewrite IH by tauto. unfold set_data.
  destruct (String.eqb_spec (nc_name v) name) as [Heq|_]; [|done].
  destruct Hn. by left.
Qed.

(** Writing variables of the schema appends them to the staged dataset,
    each with the values computed from the table. *)
Lemma write_variables_spec `{Libraries} nc fr vss :
  forall w w' ds,
    files w !! nc = Some (NetCDF ds) ->
    NoDup (List.map nc_name (ds_vars ds) ++ List.map vs_name vss) ->
    write_variables nc fr (list_slice 43 121 (columns fr)) vss w = (Ok tt, w') ->
    exists vars,
      files w' !! nc = Some (NetCDF (Dataset (ds_title ds) (ds_dims ds)
                                      (ds_vars ds ++ vars) (ds_closed ds))) /\
      Forall2 (written fr) vss vars.
Proof.
  induction vss as [|vs vss IH]; intros w w' ds Hds Hnd E; simpl in E.
  - injection E as <-. exists []. rewrite app_nil_r. by destruct ds.
  - unfold write_variable, mbind, M_bind in E.
    unfold createVariable in E. rewrite (update_dataset_ok _ _ _ _ Hds) in E.
    unfold lift in E.
    destruct (source_values fr (list_slice 43 121 (columns fr)) (vs_source vs))
      as [data|e] eqn:Ed; [|done].
    unfold assign in E at 1.
    rewrite (update_dataset_ok _ _ _ (Dataset (ds_title ds) (ds_dims ds)
               (ds_vars ds ++ [NcVar (vs_name vs) (vs_dtype vs) (vs_dims vs)
                                 (vs_units vs) (vs_long_name vs) (Vec [])])
               (ds_closed ds))) in E by (simpl; apply lookup_insert_eq).
    cbn [ds_title ds_dims ds_vars ds_closed] in E.
    apply NoDup_app in Hnd as (Hnd1 & Hdisj & Hnd2).
    apply NoDup_cons in Hnd2 as [Hvs Hnd2].
    rewrite map_app, set_data_other in E.
    2:{ intros Hin. apply (Hdisj (vs_name vs)); [by apply list_elem_of_In|by left]. }
    simpl in E. unfold set_data in E at 1. simpl in E.
    rewrite String.eqb_refl in E.
    set (v := NcVar (vs_name vs) (vs_dtype vs) (vs_dims vs) (vs_units vs)
                (vs_long_name vs) data) in E.
    apply (IH _ w' (Dataset (ds_title ds) (ds_dims ds) (ds_vars ds ++ [v])
                      (ds_closed ds))) in E as (vars & Hvars & Hall).
    + exists (v :: vars).
      cbn [ds_title ds_dims ds_vars ds_closed] in Hvars.
      rewrite <- app_assoc in Hvars. split; [exact Hvars|].
      constructor; [|done]. by repeat split.
    + simpl. apply lookup_insert_eq.
    + cbn [ds_vars]. rewrite map_app. simpl. rewrite <- app_assoc. simpl.
      apply NoDup_app. split; [done|]. split.
      * intros x Hx [->|Hx']%elem_of_cons.
        -- apply (Hdisj (vs_name vs)); [done|by left].
        -- apply (Hdisj x); [done|by right].
      * by apply NoDup_cons.
Qed.

Lemma keeps_write_variables `{Libraries} nc fr labels vss :
  keeps (fun p => p = nc) (write_variables nc fr labels vss).
Proof.
  induction vss as [|vs vss IH]; simpl; [apply keeps_ret|].
  apply keeps_bind; [|done]. unfold write_variable.
  apply keeps_bind; [by apply keeps_update_dataset|]. intros _.
  apply keeps_bind; [apply keeps_lift|]. intros data.
  by apply keeps_update_dataset.
Qed.

Lemma keeps_read_table `{Libraries} P path : keeps P (read_table path).
Proof.
  apply keeps_pure. intros w. unfold read_table.
  destruct (files w !! path) as [[bytes|ds]|]; [destruct (parse_table bytes)|..];
    eauto.
Qed.

Lemma keeps_stage_artifact `{Libraries} lp filename :
  keeps (fun p => p = staging_nc lp) (stage_artifact lp filename).
Proof.
  unfold stage_artifact.
  apply keeps_bind; [apply keeps_read_table|]. intros fr.
  apply keeps_bind; [apply keeps_time|]. intros t.
  apply keeps_bind.
  { by apply (keeps_set_files _ (staging_nc lp) (fun _ => NetCDF _)). }
  intros _.
  apply keeps_bind; [by apply keeps_update_dataset|]. intros _.
  apply keeps_bind; [apply keeps_write_variables|]. intros _.
  apply keeps_bind; [by apply keeps_update_dataset|]. intros _.
  apply keeps_bind; [apply keeps_write_variables|]. intros _.
  by apply keeps_update_dataset.
Qed.

Lemma variables_names_distinct : NoDup (List.map vs_name variables).
Proof. apply (bool_decide_unpack _). by vm_compute. Qed.

(** When the staging succeeds, the staged dataset is closed and holds
    every variable of the schema, computed from the table that was read. *)
Lemma stage_artifact_complete `{Libraries} lp filename w w1 :
  stage_artifact lp filename w = (Ok tt, w1) ->
  exists c, files w1 !! staging_nc lp = Some c /\
            complete_artifact w (local_file lp filename) c.
Proof.
  intros E. unfold stage_artifact, mbind, M_bind in E.
  unfold read_table in E at 1.
  destruct (files w !! local_file lp filename) as [[bytes|?]|] eqn:Etxt; try done.
  destruct (parse_table bytes) as [fr|?] eqn:Efr; [|done].
  unfold time, Dataset_create in E.
  set (labels := list_slice 43 121 (columns fr)) in *.
  set (title := "PALAS Fidas 200 S data - downloaded on " +:+ ctime (now w)) in *.
  unfold createDimension in E at 1.
  rewrite (update_dataset_ok _ _ _ (Dataset title [] [] false)) in E
    by (simpl; apply lookup_insert_eq).
  cbn [ds_title ds_dims ds_vars ds_closed app] in E.
  match type of E with
  | context [write_variables ?nc ?fr ?l (take 1 variables) ?w0] =>
      destruct (write_variables nc fr l (take 1 variables) w0)
        as [[[]|?] w2] eqn:E2; [|done]
  end.
  apply (write_variables_spec _ _ _ _ _
           (Dataset title [("sizes", Some (length labels))] [] false)) in E2
    as (vars1 & Hw2 & Hall1).
  2:{ simpl. apply lookup_insert_eq. }
  2:{ cbn [ds_vars List.map app]. apply (bool_decide_unpack _). by vm_compute. }
  cbn [ds_title ds_dims ds_vars ds_closed app] in Hw2.
  unfold createDimension in E at 1.
  rewrite (update_dataset_ok _ _ _ _ Hw2) in E.
  cbn [ds_title ds_dims ds_vars ds_closed app] in E.
  match type of E with
  | context [write_variables ?nc ?fr ?l (drop 1 variables) ?w0] =>
      destruct (write_variables nc fr l (drop 1 variables) w0)
        as [[[]|?] w3] eqn:E3; [|done]
  end.
  apply (write_variables_spec _ _ _ _ _
           (Dataset title [("sizes", Some (length labels)); ("time", None)]
              vars1 false)) in E3 as (vars2 & Hw3 & Hall2).
  2:{ simpl. apply lookup_insert_eq. }
  2:{ cbn [ds_vars].
      assert (Hn1 : List.map nc_name vars1 = List.map vs_name (take 1 variables)).
      { clear -Hall1. induction Hall1 as [|vs v ? ? Hv ? IH]; [done|].
        simpl. destruct Hv as [-> _]. simpl in IH. by rewrite IH. }
      rewrite Hn1, <- map_app.
      change (take 1 variables ++ drop 1 variables) with variables.
      apply variables_names_distinct. }
  cbn [ds_title ds_dims ds_vars ds_closed app] in Hw3.
  unfold Dataset_close in E. rewrite (update_dataset_ok _ _ _ _ Hw3) in E.
  injection E as <-. eexists. split; [simpl; apply lookup_insert_eq|].
  exists bytes, fr, (Dataset title [("sizes", Some (length labels)); ("time", None)]
                       (vars1 ++ vars2) true).
  repeat split; try done.
  change variables with (take 1 variables ++ drop 1 variables).
  by apply Forall2_app.
Qed.

Lemma convert_publishes_atomically `{Libraries} lp filename w :
  local_file lp (py_slice_to (-4) filename +:+ ".nc") <> staging_nc lp ->
  publishes_atomically (local_file lp (py_slice_to (-4) filename +:+ ".nc"))
    (complete_artifact w (local_file lp filename))
    w (convert_to_netCFD4 lp filename w).
Proof.
  intros Hne. rewrite convert_stage_then_rename.
  unfold publishes_atomically, mbind, M_bind.
  destruct (stage_artifact lp filename w) as [r1 w1] eqn:E1.
  destruct (keeps_stage_artifact _ _ _ _ _ E1) as (new & Hh & Hd).
  set (final := local_file lp (py_slice_to (-4) filename +:+ ".nc")) in *.
  assert (Hagree : Forall (fun d : directory => d !! final = files w !! final)
                     (files w1 :: new)).
  { apply List.Forall_forall. intros d Hin. by apply Hd. }
  apply Forall_cons in Hagree as [Hw1 Hnew].
  destruct r1 as [[]|e]; [|by exists new].
  destruct (stage_artifact_complete _ _ _ _ E1) as (c & Hc & Hcomplete).
  unfold os_rename. rewrite Hc. simpl.
  exists (<[final := c]> (delete (staging_nc lp) (files w1)) :: new).
  split; [by rewrite Hh|].
  exists new, c. split; [done|]. split; [apply lookup_insert_eq|]. done.
Qed.

(** C2. For every name that matches the instrument pattern (as every name
    handed to a fetch or a conversion does), in every state the directory
    goes through during [download_data_file] the final name
    [local_path/filename] is as it was before, except for the state made
    by the rename that ends a successful fetch, in which it holds all the
    bytes of the transfer; and in every state the directory goes through
    during [convert_to_netCFD4] the final name [local_path/<filename without
    .txt>.nc] is as it was before, except for the state made by the rename
    that ends a successful conversion, in which it holds the closed dataset
    with every variable of the schema written. When either fails, the
    final name is as it was before. *)
Theorem final_names_published_atomically `{Libraries} ftpobj lp filename w :
  fnmatch filename instrument_pattern = true ->
  publishes_atomically (local_file lp filename)
    (fun c => c = RawFile (retr_bytes (ftp_retr ftpobj filename)))
    w (download_data_file ftpobj lp filename w) /\
  publishes_atomically (local_file lp (py_slice_to (-4) filename +:+ ".nc"))
    (complete_artifact w (local_file lp filename))
    w (convert_to_netCFD4 lp filename w).
Proof.
  intros Hm. split.
  - by apply download_publishes_atomically, staging_txt_not_final.
  - by apply convert_publishes_atomically, staging_nc_not_final.
Qed.

Lemma final_names_published_atomically_witness :
  fnmatch "DUSTMONITOR_7777_2024_03.txt" instrument_pattern = true /\
  publishes_atomically (local_file "/data" "DUSTMONITOR_7777_2024_03.txt")
    (fun c => c = RawFile (retr_bytes (ftp_retr quick_ftp "DUSTMONITOR_7777_2024_03.txt")))
    demo_world
    (download_data_file quick_ftp "/data" "DUSTMONITOR_7777_2024_03.txt" demo_world) /\
  publishes_atomically
    (local_file "/data" (py_slice_to (-4) "DUSTMONITOR_7777_2024_01.txt" +:+ ".nc"))
    (complete_artifact demo_world (local_file "/data" "DUSTMONITOR_7777_2024_01.txt"))
    demo_world
    (convert_to_netCFD4 "/data" "DUSTMONITOR_7777_2024_01.txt" demo_world).
Proof.
  assert (H3 : fnmatch "DUSTMONITOR_7777_2024_03.txt" instrument_pattern = true)
    by reflexivity.
  assert (H1 : fnmatch "DUSTMONITOR_7777_2024_01.txt" instrument_pattern = true)
    by reflexivity.
  split; [exact H3|]. split.
  - exact (proj1 (final_names_published_atomically quick_ftp "/data"
                    "DUSTMONITOR_7777_2024_03.txt" demo_world H3)).
  - exact (proj2 (final_names_published_atomically quick_ftp "/data"
                    "DUSTMONITOR_7777_2024_01.txt" demo_world H1)).
Defined.

(** The conversion of the sample file: it succeeds, the artifact is at its
    final name, nothing is left at the staging name, and the artifact
    holds the 40 variables, [errors] being 9 for the only record. *)
Example convert_demo :
  let out := convert_to_netCFD4 "/data" "DUSTMONITOR_7777_2024_01.txt" demo_world in
  fst out = Ok tt /\
  files (snd out) !! "/data/temporary_dust_file.nc" = None /\
  exists ds,
    files (snd out) !! "/data/DUSTMONITOR_7777_2024_01.nc" = Some (NetCDF ds) /\
    ds_closed ds = true /\
    List.map nc_name (ds_vars ds) = List.map vs_name variables /\
    List.map nc_data (List.filter (fun v => String.eqb (nc_name v) "errors") (ds_vars ds))
      = [Vec [CInt 9]].
Proof.
  split; [by vm_compute|]. split; [by vm_compute|].
  eexists. split; [by vm_compute|]. repeat split; by vm_compute.
Qed.

(* ================================================================== *)
(** * Properties of the main loop *)

(** C7. For every listing in which no name matches the instrument pattern,
    [files_to_be_downloaded] returns [None]; it never returns an empty
    list; and the cycle that gets such a listing raises [ValueError], which
    ends it: nothing is fetched, the directory is untouched, and the
    message of the error is what the cycle prints last. *)
Theorem no_matching_file_is_fatal `{Libraries} (cred : credentials) (r : remote)
    (foldercontent : list string) fs t out hist :
  connect_result r = Ok foldercontent ->
  (forall line, In line foldercontent ->
                fnmatch (last_field line) instrument_pattern = false) ->
  let w := idle_world fs t out hist in
  let e := Exn ValueError ("Data files not found in folder: " +:+ DATADIR cred) in
  files_to_be_downloaded fs foldercontent (TARGET_PATH cred) = Ok None /\
  (forall fc' lp', files_to_be_downloaded fs fc' lp' <> Ok (Some [])) /\
  fst (cycle_body cred r w) = Raise e /\
  fst (poll_cycle cred r w) = Ok tt /\
  List.last (stdout (snd (poll_cycle cred r w))) "" = exn_msg e /\
  files (snd (poll_cycle cred r w)) = fs /\
  history (snd (poll_cycle cred r w)) = hist.
Proof.
  intros Hconn Hno w e.
  assert (Hnone : files_to_be_downloaded fs foldercontent (TARGET_PATH cred) = Ok None).
  { unfold files_to_be_downloaded. by rewrite (matching_filenames_none _ Hno). }
  split; [done|]. split.
  { intros fc' lp' Hsome. by apply files_to_be_downloaded_some in Hsome as [? _]. }
  assert (Hbody : exists w', cycle_body cred r w = (Raise e, w') /\
                             files w' = fs /\ history w' = hist).
  { unfold cycle_body, mbind, M_bind, time, print, open_ftp_get_file_list, wait,
      mbind, M_bind, lift. simpl. rewrite Hconn. simpl. rewrite Hnone. simpl.
    eexists. split; [reflexivity|]. done. }
  destruct Hbody as (w' & Hbody & Hfs & Hhist).
  unfold poll_cycle, try_except. rewrite Hbody. simpl.
  repeat split; try done. by rewrite last_last.
Qed.

Lemma no_matching_file_is_fatal_witness :
  let r := Remote 30 (Ok ["drwxr-xr-x 2 ftp ftp 4096 Mar 03 10:00 logs"]) quick_ftp in
  connect_result r = Ok ["drwxr-xr-x 2 ftp ftp 4096 Mar 03 10:00 logs"] /\
  (forall line, In line ["drwxr-xr-x 2 ftp ftp 4096 Mar 03 10:00 logs"] ->
                fnmatch (last_field line) instrument_pattern = false) /\
  fst (cycle_body demo_credentials r (idle_world demo_directory 0 [] []))
    = Raise (Exn ValueError "Data files not found in folder: /fidas/data").
Proof.
  intros r.
  assert (H1 : connect_result r = Ok ["drwxr-xr-x 2 ftp ftp 4096 Mar 03 10:00 logs"])
    by reflexivity.
  assert (H2 : forall line, In line ["drwxr-xr-x 2 ftp ftp 4096 Mar 03 10:00 logs"] ->
                            fnmatch (last_field line) instrument_pattern = false).
  { intros line [<-|[]]. reflexivity. }
  split; [exact H1|]. split; [exact H2|].
  exact (proj1 (proj2 (proj2
    (no_matching_file_is_fatal demo_credentials r _ demo_directory 0 [] [] H1 H2)))).
Defined.

(** [time.sleep] with a negative argument raises; with any other argument,
    and no alarm pending, it lets that much time pass. *)
Lemma sleep_negative d w :
  d < 0 -> sleep d w = (Raise (Exn ValueError "sleep length must be non-negative"), w).
Proof. intros Hd. unfold sleep. apply Z.ltb_lt in Hd. by rewrite Hd. Qed.

Lemma sleep_nonnegative d w :
  0 <= d -> alarm w = None -> sleep d w = (Ok tt, set_now (now w + d) w).
Proof.
  intros Hd Ha. unfold sleep, wait.
  assert (Hd' : (d <? 0) = false) by (apply Z.ltb_ge; lia).
  by rewrite Hd', Ha.
Qed.

(** A cycle that does not overrun: the listing holds the periods 2024-01
    to 2024-03 and the local directory the file of 2024-01; the cycle takes
    7.03 seconds, leaves the raw file and the artifact of the three periods
    in the directory, and sleeps for the rest of the interval, so that the
    next cycle starts 600 seconds after this one started. *)
Example cycle_in_time :
  let out := poll_cycle demo_credentials (demo_station 1000) demo_world in
  fst out = Ok tt /\
  List.last (stdout (snd out)) "" = "All done. Connection closed." /\
  forallb (path_exists (files (snd out)))
    ["/data/DUSTMONITOR_7777_2024_01.txt"; "/data/DUSTMONITOR_7777_2024_01.nc";
     "/data/DUSTMONITOR_7777_2024_02.txt"; "/data/DUSTMONITOR_7777_2024_02.nc";
     "/data/DUSTMONITOR_7777_2024_03.txt"; "/data/DUSTMONITOR_7777_2024_03.nc"]
    = true /\
  size (files (snd out)) = 6%nat /\
  now (snd out) = milliseconds DownloadInterval.
Proof. repeat split; by vm_compute. Qed.

(** C4 (the code at the failing input). Connecting takes 601 seconds, the
    three files are fetched and converted, the connection is closed: the
    cycle has succeeded and has taken 607.03 seconds, more than the
    interval of 600 seconds. [time.sleep] is then called with -7.03
    seconds and raises [ValueError]; the handler of the loop prints
    [sleep length must be non-negative]: no sleep of length zero takes
    place, the successful cycle ends as a failed one. *)
Theorem overrun_cycle_sleep_raises :
  let body := cycle_body demo_credentials (demo_station 601000) demo_world in
  let out := poll_cycle demo_credentials (demo_station 601000) demo_world in
  milliseconds DownloadInterval = 600000 /\
  now (snd body) - now demo_world = 607030 /\
  In "All done. Connection closed." (stdout (snd body)) /\
  fst body = Raise (Exn ValueError "sleep length must be non-negative") /\
  fst out = Ok tt /\
  List.last (stdout (snd out)) "" = "sleep length must be non-negative" /\
  now (snd out) = 607030.
Proof.
  split; [done|]. split; [by vm_compute|]. split.
  { vm_compute. do 8 right. by left. }
  repeat split; by vm_compute.
Qed.

(** One cycle against a station that fails: the exception is caught and
    printed, and the cycle ends when the failure arrives, without sleep. *)
Lemma failed_connection_cycle `{Libraries} cred e d ftpobj fs t out hist :
  poll_cycle cred (Remote d (Raise e) ftpobj) (idle_world fs t out hist)
    = (Ok tt, idle_world fs (t + d) (out ++ [banner t; exn_msg e]) hist).
Proof.
  unfold poll_cycle, try_except, cycle_body, mbind, M_bind, time, print,
    open_ftp_get_file_list, wait, mbind, M_bind, idle_world. simpl.
  rewrite <- app_assoc. reflexivity.
Qed.

(** No exception of a cycle leaves the loop: whatever the station does,
    an iteration ends normally. *)
Lemma poll_cycle_never_raises `{Libraries} cred r w :
  fst (poll_cycle cred r w) = Ok tt.
Proof.
  unfold poll_cycle, try_except. by destruct (cycle_body cred r w) as [[[]|e] w'].
Qed.

Lemma main_loop_never_raises `{Libraries} cred station :
  forall w, fst (main_loop cred station w) = Ok tt.
Proof.
  induction station as [|r station IH]; intros w; simpl; [done|].
  unfold mbind, M_bind. pose proof (poll_cycle_never_raises cred r w) as Hr.
  destruct (poll_cycle cred r w) as [[[]|e] w']; [apply IH|done].
Qed.

(** C5 (the code on a station that always fails). Every exception of a
    cycle is caught and printed and the loop goes on: [n] cycles against a
    station that fails [d] milliseconds after each attempt all complete,
    each printing its first line and the message of the exception. But a
    failed cycle does not sleep: the [n] cycles are over after [n * d]
    milliseconds, not after [n] intervals of 600 seconds; when the station
    refuses at once ([d = 0]) they all take place at the same instant. *)
Theorem failing_station_polled_back_to_back `{Libraries} cred e d ftpobj n :
  forall fs t out hist,
    main_loop cred (repeat (Remote d (Raise e) ftpobj) n) (idle_world fs t out hist)
    = (Ok tt, idle_world fs (t + Z.of_nat n * d)
                (out ++ failed_cycles_log e d t n) hist).
Proof.
  induction n as [|n IH]; intros fs t out hist.
  - simpl. rewrite app_nil_r, Z.add_0_r. reflexivity.
  - cbn [repeat main_loop]. unfold mbind, M_bind.
    rewrite failed_connection_cycle, IH. cbn [failed_cycles_log].
    rewrite <- app_assoc. simpl. f_equal. unfold idle_world. f_equal. lia.
Qed.

(** Five cycles against a station that refuses the connection at once:
    the clock has not moved. *)
Example refusing_station_demo :
  let final := main_loop demo_credentials (repeat (refusing_station 0) 5) demo_world in
  fst final = Ok tt /\ now (snd final) = now demo_world /\
  length (stdout (snd final)) = 10%nat.
Proof. repeat split; by vm_compute. Qed.

(* ================================================================== *)
(** * Further properties of the selection *)

(** Once [fname] is bound the walk cannot raise. *)
Lemma walk_periods_bound {C} (fs : gmap string C) lp fns ks :
  forall f acc, exists l, walk_periods fs lp fns (Some f) acc ks = Ok l.
Proof.
  induction ks as [|k ks IH]; intros f acc; simpl; [eauto|].
  destruct (first_match fns k) as [g|];
    (destruct (path_exists fs _); [eauto|apply IH]).
Qed.

(** The walk appends at most one name per period it is given. *)
Lemma walk_periods_length {C} (fs : gmap string C) lp fns ks :
  forall fname acc l,
    walk_periods fs lp fns fname acc ks = Ok l ->
    (length l <= length acc + length ks)%nat.
Proof.
  induction ks as [|k ks IH]; intros fname acc l; simpl.
  - intros [= <-]. lia.
  - destruct (match first_match fns k with
              | Some fn => Some fn
              | None => fname
              end) as [f|]; [|done].
    destruct (path_exists fs _).
    + intros [= <-]. rewrite length_app. simpl. lia.
    + intros Hw. apply IH in Hw. rewrite length_app in Hw. simpl in Hw. lia.
Qed.

Lemma visited_periods_length fns :
  length (visited_periods fns) = length fns.
Proof.
  unfold visited_periods, sort_periods.
  rewrite length_rev, (Permutation_length (merge_sort_Permutation _ _)).
  apply length_map.
Qed.

(** The three outcomes of the selection. It returns [None] exactly when no
    name of the listing matches the instrument pattern. It raises exactly
    when some name matches and the search for the newest period finds
    nothing, and then what it raises is [UnboundLocalError]. Otherwise it
    returns a list that is not empty, starts with the name found for the
    newest period, holds matching names of the listing only, and is no
    longer than the list of matching names. *)
Theorem files_to_be_downloaded_outcomes {C} (fs : gmap string C)
    (foldercontent : list string) (local_path : string) :
  let fns := matching_filenames foldercontent in
  match files_to_be_downloaded fs foldercontent local_path with
  | Ok None => fns = []
  | Ok (Some l) =>
      exists newest f rest,
        head (visited_periods fns) = Some newest /\
        first_match fns newest = Some f /\
        l = f :: rest /\
        Forall (fun g => In g fns /\ fnmatch g instrument_pattern = true) l /\
        (length l <= length fns)%nat
  | Raise e =>
      e = unbound_fname /\
      exists newest, head (visited_periods fns) = Some newest /\
                     first_match fns newest = None
  end.
Proof.
  intros fns. unfold files_to_be_downloaded. fold fns.
  destruct fns as [|fn fns'] eqn:Efns; [done|].
  fold (visited_periods (fn :: fns')).
  pose proof (visited_periods_length (fn :: fns')) as Hlen.
  destruct (visited_periods (fn :: fns')) as [|k ks] eqn:Eks; [done|].
  destruct (walk_periods fs local_path (fn :: fns') None [] (k :: ks))
    as [l|e] eqn:Hw.
  - pose proof (walk_periods_length _ _ _ _ _ _ _ Hw) as Hl.
    destruct (walk_periods_extends _ _ _ _ _ _ _ Hw) as (added & -> & _ & Hin);
      [by intros ? [=]|].
    cbn [walk_periods] in Hw.
    destruct (first_match (fn :: fns') k) as [f|] eqn:Ef; [|discriminate Hw].
    assert (Hhead : exists rest, [] ++ added = f :: rest).
    { destruct (path_exists fs (local_file local_path f)).
      - injection Hw as <-. by exists [].
      - apply walk_periods_extends in Hw as (added' & Hadd & _).
        + exists added'. by rewrite Hadd.
        + intros ? [= <-]. by apply find_some in Ef as [? _]. }
    destruct Hhead as [rest Hrest].
    exists k, f, rest. split; [done|]. split; [done|]. split; [done|].
    split; [|simpl in *; lia].
    apply List.Forall_forall. intros g Hg. simpl in Hg. split; [by apply Hin|].
    apply Hin in Hg. rewrite <- Efns in Hg. unfold fns in Hg.
    by apply matching_filenames_spec in Hg as [_ ?].
  - cbn [walk_periods] in Hw.
    destruct (first_match (fn :: fns') k) as [f|] eqn:Ef.
    + exfalso. destruct (path_exists fs (local_file local_path f)); [done|].
      destruct (walk_periods_bound fs local_path (fn :: fns') ks f ([] ++ [f]))
        as [l Hl].
      by rewrite Hl in Hw.
    + injection Hw as <-. split; [done|]. by exists k.
Qed.

Lemma visited_periods_nonempty fns : fns <> [] -> visited_periods fns <> [].
Proof.
  intros Hne Hv. apply (f_equal (@length _)) in Hv.
  rewrite visited_periods_length in Hv. by destruct fns.
Qed.

Lemma find_key_In {A B} `{EqDecision B} (key : A -> B) (l : list A) k x :
  List.find (fun y => bool_decide (key y = k)) l = Some x -> In x l /\ key x = k.
Proof.
  intros H. apply find_some in H as [Hin Hk]. split; [done|].
  by apply bool_decide_eq_true in Hk.
Qed.

(** The steady state. When the matching names follow the convention and
    the first name of the newest period is already in the local directory,
    that name is the only one selected: it is fetched once more and nothing
    else is. *)
Theorem newest_present_selects_only_it {C} (fs : gmap string C)
    (foldercontent : list string) (local_path f : string) :
  let fns := matching_filenames foldercontent in
  forallb follows_convention fns = true ->
  List.find (fun fn => bool_decide (year_month_of fn = year_month_of f)) fns = Some f ->
  (forall fn, In fn fns -> period_le (year_month_of fn) (year_month_of f)) ->
  present fs local_path f = true ->
  files_to_be_downloaded fs foldercontent local_path = Ok (Some [f]).
Proof.
  intros fns Hall Hfind Hmax Hpresent.
  destruct (find_key_In _ _ _ _ Hfind) as [Hin _].
  assert (Hne : fns <> []) by (intros E; by rewrite E in Hin).
  rewrite files_to_be_downloaded_conforming by done. fold fns.
  pose proof (visited_periods_sorted fns) as Hsorted.
  pose proof (visited_periods_nonempty fns Hne) as Hvne.
  assert (Hf : In (year_month_of f) (visited_periods fns))
    by (apply visited_periods_In; eauto).
  destruct (visited_periods fns) as [|k0 ks] eqn:Ev; [done|].
  assert (Hk0 : k0 = year_month_of f).
  { apply (anti_symm period_le).
    - assert (Hk : In k0 (visited_periods fns)) by (rewrite Ev; by left).
      apply visited_periods_In in Hk as (fn & Hfn & <-). by apply Hmax.
    - apply StronglySorted_cons in Hsorted as [Hhd _].
      destruct Hf as [->|Hf]; [done|].
      rewrite List.Forall_forall in Hhd. by apply Hhd. }
  assert (Hpick : pick fns k0 = f).
  { unfold pick. rewrite first_match_by_key; [|done|rewrite Ev; by left].
    by rewrite Hk0, Hfind. }
  simpl. by rewrite Hpick, Hpresent.
Qed.

Lemma newest_present_selects_only_it_witness :
  let fs : directory :=
    {[ "/data/DUSTMONITOR_7777_2024_03.txt" := RawFile "march" ]} in
  let fns := matching_filenames demo_listing in
  forallb follows_convention fns = true /\
  (forall fn, In fn fns ->
              period_le (year_month_of fn)
                (year_month_of "DUSTMONITOR_7777_2024_03.txt")) /\
  files_to_be_downloaded fs demo_listing "/data"
    = Ok (Some ["DUSTMONITOR_7777_2024_03.txt"]).
Proof.
  intros fs fns.
  assert (H1 : forallb follows_convention fns = true) by (by vm_compute).
  assert (H2 : forall fn, In fn fns ->
                 period_le (year_month_of fn)
                   (year_month_of "DUSTMONITOR_7777_2024_03.txt")).
  { intros fn Hfn. vm_compute in Hfn.
    destruct Hfn as [<-|[<-|[<-|[]]]]; by vm_compute. }
  split; [exact H1|]. split; [exact H2|].
  apply (newest_present_selects_only_it fs demo_listing "/data"
           "DUSTMONITOR_7777_2024_03.txt" H1); [by vm_compute|exact H2|by vm_compute].
Defined.

Lemma take_through_none {A} (p : A -> bool) (l : list A) :
  (forall x, In x l -> p x = false) -> take_through p l = l.
Proof.
  induction l as [|x l IH]; intros H; simpl; [done|].
  rewrite (H x) by (by left). f_equal. apply IH. intros y Hy. apply H. by right.
Qed.

(** The first run. When the matching names follow the convention and none
    of them is in the local directory, one name is selected for every
    entry of the listing that matches: the periods of the selected names
    are all the periods of the listing, newest first. *)
Theorem nothing_present_selects_every_period {C} (fs : gmap string C)
    (foldercontent : list string) (local_path : string) :
  let fns := matching_filenames foldercontent in
  fns <> [] ->
  forallb follows_convention fns = true ->
  (forall f, In f fns -> present fs local_path f = false) ->
  exists l,
    files_to_be_downloaded fs foldercontent local_path = Ok (Some l) /\
    List.map year_month_of l = visited_periods fns /\
    length l = length fns /\
    (forall fn, In fn fns -> In (year_month_of fn) (List.map year_month_of l)).
Proof.
  intros fns Hne Hall Habsent.
  destruct (pick_periods fns Hall) as [Hkeys Hin].
  exists (List.map (pick fns) (visited_periods fns)).
  rewrite files_to_be_downloaded_conforming by done. fold fns.
  rewrite take_through_none by (intros x Hx; by apply Habsent, Hin).
  split; [done|]. split; [done|]. split.
  - by rewrite length_map, visited_periods_length.
  - intros fn Hfn. rewrite Hkeys. apply visited_periods_In. eauto.
Qed.

Lemma nothing_present_selects_every_period_witness :
  let fns := matching_filenames demo_listing in
  fns <> [] /\
  forallb follows_convention fns = true /\
  (forall f, In f fns -> present (∅ : directory) "/data" f = false) /\
  exists l, files_to_be_downloaded (∅ : directory) demo_listing "/data" = Ok (Some l) /\
            length l = 3%nat.
Proof.
  intros fns.
  assert (H1 : fns <> []) by (by vm_compute).
  assert (H2 : forallb follows_convention fns = true) by (by vm_compute).
  assert (H3 : forall f, In f fns -> present (∅ : directory) "/data" f = false).
  { intros f Hf. reflexivity. }
  split; [exact H1|]. split; [exact H2|]. split; [exact H3|].
  destruct (nothing_present_selects_every_period (∅ : directory) demo_listing
              "/data" H1 H2 H3) as (l & Hl & _ & Hlen & _).
  exists l. split; [exact Hl|exact Hlen].
Defined.

Lemma filter_Permutation {A} (p : A -> bool) (l l' : list A) :
  l ≡ₚ l' -> List.filter p l ≡ₚ List.filter p l'.
Proof.
  induction 1 as [|x l l' _ IH|x y l|l l' l'' _ IH1 _ IH2]; simpl.
  - done.
  - destruct (p x); [by constructor|done].
  - destruct (p x), (p y); try done. apply perm_swap.
  - by etrans.
Qed.

Lemma matching_filenames_Permutation fc fc' :
  fc ≡ₚ fc' -> matching_filenames fc ≡ₚ matching_filenames fc'.
Proof.
  intros H. unfold matching_filenames. apply filter_Permutation.
  by apply Permutation_map.
Qed.

Lemma visited_periods_Permutation fns fns' :
  fns ≡ₚ fns' -> visited_periods fns = visited_periods fns'.
Proof.
  intros H. unfold visited_periods. f_equal. apply sort_periods_unique.
  - apply sort_periods_sorted.
  - rewrite sort_periods_perm. by apply Permutation_map.
Qed.

(** With distinct keys the search by key finds the same element in a list
    and in a rearrangement of it. *)
Lemma find_key_Permutation {A B} `{EqDecision B} (key : A -> B) (l l' : list A) k :
  NoDup (List.map key l) -> l ≡ₚ l' ->
  List.find (fun y => bool_decide (key y = k)) l
  = List.find (fun y => bool_decide (key y = k)) l'.
Proof.
  intros Hnd Hp.
  destruct (List.find (fun y => bool_decide (key y = k)) l) as [x|] eqn:E;
    destruct (List.find (fun y => bool_decide (key y = k)) l') as [x'|] eqn:E';
    try done.
  - destruct (find_key_In _ _ _ _ E) as [Hx Hkx].
    destruct (find_key_In _ _ _ _ E') as [Hx' Hkx'].
    f_equal. apply list_elem_of_In in Hx, Hx'. rewrite <- Hp in Hx'.
    apply list_elem_of_lookup in Hx as [i Hi]. apply list_elem_of_lookup in Hx' as [j Hj].
    assert (i = j) as ->; [|congruence].
    eapply NoDup_lookup; [exact Hnd| |].
    + change List.map with (@fmap list _). rewrite list_lookup_fmap, Hi. done.
    + change List.map with (@fmap list _). rewrite list_lookup_fmap, Hj.
      simpl. congruence.
  - destruct (find_key_In _ _ _ _ E) as [Hx Hkx].
    eapply find_none in E'.
    + apply bool_decide_eq_false in E'. done.
    + apply list_elem_of_In. rewrite <- Hp. by apply list_elem_of_In.
  - destruct (find_key_In _ _ _ _ E') as [Hx Hkx].
    eapply find_none in E.
    + apply bool_decide_eq_false in E. done.
    + apply list_elem_of_In. rewrite Hp. by apply list_elem_of_In.
Qed.

(** The selection does not depend on the order of the lines of the
    listing, when the matching names follow the convention and no two of
    them are of the same period. *)
Theorem selection_independent_of_listing_order {C} (fs : gmap string C)
    (foldercontent foldercontent' : list string) (local_path : string) :
  foldercontent ≡ₚ foldercontent' ->
  forallb follows_convention (matching_filenames foldercontent) = true ->
  NoDup (List.map year_month_of (matching_filenames foldercontent)) ->
  files_to_be_downloaded fs foldercontent local_path
  = files_to_be_downloaded fs foldercontent' local_path.
Proof.
  intros Hp Hall Hnd.
  pose proof (matching_filenames_Permutation _ _ Hp) as Hpm.
  set (fns := matching_filenames foldercontent) in *.
  set (fns' := matching_filenames foldercontent') in *.
  assert (Hall' : forallb follows_convention fns' = true).
  { apply forallb_forall. intros x Hx. rewrite forallb_forall in Hall.
    apply Hall, list_elem_of_In. rewrite Hpm. by apply list_elem_of_In. }
  destruct fns as [|fn rest] eqn:Efns.
  { apply Permutation_nil in Hpm. unfold files_to_be_downloaded.
    fold fns fns'. by rewrite Efns, Hpm. }
  assert (Hne' : fns' <> []).
  { intros E. rewrite E in Hpm. symmetry in Hpm. by apply Permutation_nil in Hpm. }
  rewrite !files_to_be_downloaded_conforming; fold fns fns';
    rewrite ?Efns; try done.
  rewrite <- (visited_periods_Permutation _ _ Hpm).
  do 3 f_equal. apply map_ext_in. intros k Hk. unfold pick.
  rewrite !first_match_by_key; try done.
  - by rewrite (find_key_Permutation _ _ _ k Hnd Hpm).
  - by rewrite <- (visited_periods_Permutation _ _ Hpm).
Qed.

Lemma selection_independent_of_listing_order_witness :
  demo_listing ≡ₚ rev demo_listing /\
  forallb follows_convention (matching_filenames demo_listing) = true /\
  NoDup (List.map year_month_of (matching_filenames demo_listing)) /\
  files_to_be_downloaded demo_directory demo_listing "/data"
  = files_to_be_downloaded demo_directory (rev demo_listing) "/data".
Proof.
  assert (H1 : demo_listing ≡ₚ rev demo_listing) by apply Permutation_rev.
  assert (H2 : forallb follows_convention (matching_filenames demo_listing) = true)
    by (by vm_compute).
  assert (H3 : NoDup (List.map year_month_of (matching_filenames demo_listing))).
  { apply (bool_decide_unpack _). by vm_compute. }
  split; [exact H1|]. split; [exact H2|]. split; [exact H3|].
  exact (selection_independent_of_listing_order demo_directory demo_listing
           (rev demo_listing) "/data" H1 H2 H3).
Defined.

(* ================================================================== *)
(** * Names: fields, slices, periods *)

Lemma split_space_not_nil s : split_space s <> [].
Proof.
  destruct s as [|c s]; simpl; [done|].
  destruct (Ascii.eqb c " "); [done|]. by destruct (split_space s).
Qed.

Lemma split_space_no_space s : no_space s = true -> split_space s = [s].
Proof.
  unfold no_space. induction s as [|c s IH]; simpl; [done|].
  rewrite andb_true_iff, negb_true_iff. intros [-> Hs]. by rewrite IH.
Qed.

Lemma split_space_after_space a b :
  (2 <= length (split_space (a +:+ " " +:+ b)))%nat.
Proof.
  induction a as [|c a IH].
  - change ("" +:+ " " +:+ b) with (String " " b). simpl.
    pose proof (split_space_not_nil b). destruct (split_space b); [done|simpl; lia].
  - change (String c a +:+ " " +:+ b) with (String c (a +:+ " " +:+ b)). simpl.
    destruct (Ascii.eqb c " "); [simpl; lia|].
    destruct (split_space (a +:+ " " +:+ b)) as [|w ws]; simpl in *; lia.
Qed.

Lemma last_field_after_space a b : last_field (a +:+ " " +:+ b) = last_field b.
Proof.
  unfold last_field. induction a as [|c a IH].
  - change ("" +:+ " " +:+ b) with (String " " b). simpl.
    pose proof (split_space_not_nil b). by destruct (split_space b).
  - change (String c a +:+ " " +:+ b) with (String c (a +:+ " " +:+ b)).
    pose proof (split_space_after_space a b) as Hlen. simpl.
    destruct (Ascii.eqb c " ").
    + rewrite <- IH. destruct (split_space (a +:+ " " +:+ b)); [simpl in Hlen; lia|done].
    + rewrite <- IH.
      destruct (split_space (a +:+ " " +:+ b)) as [|w [|w' ws]];
        simpl in Hlen; try lia. done.
Qed.

(** The name taken from a line of the listing is what follows its last
    space: for a name without spaces, any text and a space in front of it
    are dropped, and a line that is just the name gives the name. *)
Theorem last_field_is_the_name (before name : string) :
  no_space name = true ->
  last_field (before +:+ " " +:+ name) = name /\ last_field name = name.
Proof.
  intros Hn. rewrite last_field_after_space. unfold last_field.
  by rewrite split_space_no_space.
Qed.

Lemma last_field_is_the_name_witness :
  no_space "DUSTMONITOR_7777_2024_03.txt" = true /\
  last_field ("-rw-r--r-- 1 ftp ftp 1024 Mar 03 10:00" +:+ " "
              +:+ "DUSTMONITOR_7777_2024_03.txt")
  = "DUSTMONITOR_7777_2024_03.txt".
Proof.
  split; [reflexivity|].
  exact (proj1 (last_field_is_the_name "-rw-r--r-- 1 ftp ftp 1024 Mar 03 10:00"
                  "DUSTMONITOR_7777_2024_03.txt" eq_refl)).
Defined.

Lemma string_length_app (a b : string) :
  String.length (a +:+ b) = (String.length a + String.length b)%nat.
Proof.
  induction a as [|c a IH]; [done|].
  change (String c a +:+ b) with (String c (a +:+ b)). simpl. by rewrite IH.
Qed.

Lemma substring_0_app (a b : string) :
  String.substring 0 (String.length a) (a +:+ b) = a.
Proof.
  induction a as [|c a IH].
  - simpl. by destruct b.
  - change (String c a +:+ b) with (String c (a +:+ b)). simpl. by rewrite IH.
Qed.

Lemma substring_skip_app (a b : string) n :
  String.substring (String.length a) n (a +:+ b) = String.substring 0 n b.
Proof.
  induction a as [|c a IH]; [done|].
  change (String c a +:+ b) with (String c (a +:+ b)). simpl. exact IH.
Qed.

(** A slice whose bounds fall on the ends of the middle part of a string
    is that part. *)
Lemma py_slice_middle (a b c : string) (i j : Z) :
  slice_bound (py_len (a +:+ b +:+ c)) i = Z.of_nat (String.length a) ->
  slice_bound (py_len (a +:+ b +:+ c)) j
    = Z.of_nat (String.length a + String.length b) ->
  py_slice i j (a +:+ b +:+ c) = b.
Proof.
  intros Hi Hj. unfold py_slice. rewrite Hi, Hj.
  rewrite Nat2Z.id.
  replace (Z.to_nat (Z.of_nat (String.length a + String.length b)
                     - Z.of_nat (String.length a)))
    with (String.length b) by lia.
  rewrite substring_skip_app. apply substring_0_app.
Qed.

Lemma string_app_inv_tail (a b c : string) : a +:+ c = b +:+ c -> a = b.
Proof.
  intros H. apply list_ascii_of_string_inj.
  apply (f_equal list_ascii_of_string) in H.
  rewrite !list_ascii_of_string_app in H. by apply app_inv_tail in H.
Qed.

Lemma instrument_name_stem fn :
  fnmatch fn instrument_pattern = true ->
  exists stem, fn = stem +:+ ".txt" /\ py_slice_to (-4) fn = stem.
Proof.
  intros H. apply fnmatch_instrument in H as [mid Hfn].
  exists (string_of_list_ascii (prefix_chars ++ mid)).
  assert (Heq : fn = string_of_list_ascii (prefix_chars ++ mid) +:+ ".txt").
  { apply list_ascii_of_string_inj.
    rewrite list_ascii_of_string_app, list_ascii_of_string_of_list_ascii, Hfn.
    by rewrite <- app_assoc. }
  split; [done|]. rewrite Heq at 1.
  set (stem := string_of_list_ascii (prefix_chars ++ mid)).
  unfold py_slice_to.
  change (stem +:+ ".txt") with ("" +:+ stem +:+ ".txt").
  apply py_slice_middle.
  - done.
  - change ("" +:+ stem +:+ ".txt") with (stem +:+ ".txt").
    unfold slice_bound, py_len. rewrite string_length_app. simpl. lia.
Qed.

(** The artifact of a data file has the name of the data file with [.nc]
    in the place of [.txt], and two different data files never have the
    same artifact. *)
Theorem artifact_name_replaces_extension (filename : string) :
  fnmatch filename instrument_pattern = true ->
  (exists stem, filename = stem +:+ ".txt" /\ artifact_name filename = stem +:+ ".nc") /\
  (forall filename', fnmatch filename' instrument_pattern = true ->
                     artifact_name filename' = artifact_name filename ->
                     filename' = filename).
Proof.
  intros H. destruct (instrument_name_stem _ H) as (stem & Hfn & Hstem).
  split.
  - exists stem. split; [done|]. unfold artifact_name. by rewrite Hstem.
  - intros fn' H' Heq. destruct (instrument_name_stem _ H') as (stem' & Hfn' & Hstem').
    unfold artifact_name in Heq. rewrite Hstem, Hstem' in Heq.
    apply string_app_inv_tail in Heq. congruence.
Qed.

Lemma artifact_name_replaces_extension_witness :
  fnmatch "DUSTMONITOR_7777_2024_03.txt" instrument_pattern = true /\
  exists stem, "DUSTMONITOR_7777_2024_03.txt" = stem +:+ ".txt" /\
               artifact_name "DUSTMONITOR_7777_2024_03.txt" = stem +:+ ".nc".
Proof.
  split; [reflexivity|].
  exact (proj1 (artifact_name_replaces_extension "DUSTMONITOR_7777_2024_03.txt"
                  eq_refl)).
Defined.

(** A name built by the convention gives back its year and month as its
    period key, follows the convention, and matches the instrument pattern
    and the pattern of its own period. *)
Theorem data_file_name_round_trip (middle year month : string) :
  String.length year = 4%nat -> String.length month = 2%nat ->
  all_digits year = true -> all_digits month = true ->
  let fn := data_file_name middle year month in
  year_month_of fn = (year, month) /\
  follows_convention fn = true /\
  fnmatch fn instrument_pattern = true /\
  fnmatch fn (period_pattern (year, month)) = true.
Proof.
  intros Ly Lm Dy Dm fn.
  assert (Hlen : py_len fn = Z.of_nat (String.length middle) + 22).
  { unfold py_len, fn, data_file_name. rewrite !string_length_app, Ly, Lm.
    simpl. lia. }
  assert (Hy : py_slice (-11) (-7) fn = year).
  { unfold fn, data_file_name.
    rewrite <- (string_app_assoc "DUSTMONITOR" middle).
    fold (data_file_name middle year month). fold fn.
    replace fn with (("DUSTMONITOR" +:+ middle) +:+ year +:+ ("_" +:+ month +:+ ".txt"))
      at 1 3 by (unfold fn, data_file_name; by rewrite !string_app_assoc).
    apply py_slice_middle;
      (replace (("DUSTMONITOR" +:+ middle) +:+ year +:+ "_" +:+ month +:+ ".txt")
        with fn by (unfold fn, data_file_name; by rewrite !string_app_assoc));
      unfold slice_bound; rewrite Hlen, string_length_app, ?Ly; simpl; lia. }
  assert (Hm : py_slice (-6) (-4) fn = month).
  { replace fn with (("DUSTMONITOR" +:+ middle +:+ year +:+ "_") +:+ month +:+ ".txt")
      at 1 by (unfold fn, data_file_name; by rewrite !string_app_assoc).
    apply py_slice_middle;
      (replace (("DUSTMONITOR" +:+ middle +:+ year +:+ "_") +:+ month +:+ ".txt")
        with fn by (unfold fn, data_file_name; by rewrite !string_app_assoc));
      unfold slice_bound; rewrite Hlen, !string_length_app, ?Ly, ?Lm; simpl; lia. }
  assert (Hmid : py_slice 11 (-11) fn = middle).
  { replace fn with ("DUSTMONITOR" +:+ middle +:+ (year +:+ "_" +:+ month +:+ ".txt"))
      at 1 by done.
    apply py_slice_middle;
      (replace ("DUSTMONITOR" +:+ middle +:+ year +:+ "_" +:+ month +:+ ".txt")
        with fn by done);
      unfold slice_bound; rewrite Hlen; simpl; lia. }
  assert (Hkey : year_month_of fn = (year, month)).
  { unfold year_month_of. by rewrite Hy, Hm. }
  assert (Hconv : follows_convention fn = true).
  { unfold follows_convention. rewrite Hkey, Hmid, Ly, Lm, Dy, Dm.
    fold (data_file_name middle year month). fold fn.
    by rewrite String.eqb_refl. }
  split; [done|]. split; [done|]. split.
  - by apply follows_convention_instrument.
  - rewrite <- Hkey. by apply follows_convention_self_match.
Qed.

Lemma data_file_name_round_trip_witness :
  String.length "2024" = 4%nat /\ String.length "03" = 2%nat /\
  all_digits "2024" = true /\ all_digits "03" = true /\
  year_month_of (data_file_name "_7777_" "2024" "03") = ("2024", "03").
Proof.
  repeat (split; [reflexivity|]).
  exact (proj1 (data_file_name_round_trip "_7777_" "2024" "03"
                  eq_refl eq_refl eq_refl eq_refl)).
Defined.

(** ** Periods in time order *)

Lemma number_of_bound s :
  all_digits s = true -> (number_of s < 10 ^ N.of_nat (String.length s))%N.
Proof.
  unfold all_digits. induction s as [|c s IH]; simpl; [lia|].
  rewrite andb_true_iff. unfold is_digit at 1.
  rewrite andb_true_iff, !N.leb_le. intros [[Hlo Hhi] Hs].
  specialize (IH Hs). rewrite Nat2N.inj_succ, N.pow_succ_r'. nia.
Qed.

Lemma compare_digits a :
  forall b, String.length a = String.length b ->
            all_digits a = true -> all_digits b = true ->
            String.compare a b = N.compare (number_of a) (number_of b).
Proof.
  induction a as [|c a IH]; intros [|d b] Hlen Da Db; simpl in Hlen; try done.
  injection Hlen as Hlen.
  pose proof Da as Da'. pose proof Db as Db'.
  unfold all_digits in Da', Db'. simpl in Da', Db'.
  apply andb_true_iff in Da' as [Hc Ha]. apply andb_true_iff in Db' as [Hd Hb].
  pose proof (number_of_bound a Ha) as Ba. pose proof (number_of_bound b Hb) as Bb.
  unfold is_digit in Hc, Hd.
  apply andb_true_iff in Hc as [Hc1 Hc2]. apply andb_true_iff in Hd as [Hd1 Hd2].
  apply N.leb_le in Hc1, Hc2, Hd1, Hd2.
  simpl. rewrite <- Hlen in *. unfold Ascii.compare.
  set (P := (10 ^ N.of_nat (String.length a))%N) in *.
  destruct (N.compare_spec (N_of_ascii c) (N_of_ascii d)) as [E|L|G].
  - rewrite (IH b Hlen Ha Hb), E.
    symmetry. destruct (N.compare_spec (number_of a) (number_of b)) as [E'|L'|G'].
    + apply N.compare_eq_iff. lia.
    + apply N.compare_lt_iff. lia.
    + apply N.compare_gt_iff. lia.
  - symmetry. apply N.compare_lt_iff. nia.
  - symmetry. apply N.compare_gt_iff. nia.
Qed.

(** For keys of four and two digits the order of the period keys is the
    order of the months in time: a key comes before another exactly when
    its year and month, read as numbers, do. *)
Theorem period_order_is_chronological (y1 m1 y2 m2 : string) :
  String.length y1 = 4%nat -> String.length y2 = 4%nat ->
  String.length m1 = 2%nat -> String.length m2 = 2%nat ->
  all_digits y1 = true -> all_digits y2 = true ->
  all_digits m1 = true -> all_digits m2 = true ->
  period_le (y1, m1) (y2, m2) <->
  (number_of y1 * 100 + number_of m1 <= number_of y2 * 100 + number_of m2)%N.
Proof.
  intros Ly1 Ly2 Lm1 Lm2 Dy1 Dy2 Dm1 Dm2.
  pose proof (number_of_bound m1 Dm1) as B1. pose proof (number_of_bound m2 Dm2) as B2.
  rewrite Lm1 in B1. rewrite Lm2 in B2.
  change (10 ^ N.of_nat 2)%N with 100%N in B1, B2.
  unfold period_le, period_leb, String.leb. simpl.
  rewrite (compare_digits y1 y2), (compare_digits m1 m2) by congruence.
  destruct (N.compare_spec (number_of y1) (number_of y2)) as [E|L|G].
  - destruct (N.compare_spec (number_of m1) (number_of m2)); split; (done || lia).
  - split; [lia|done].
  - split; [done|lia].
Qed.

Lemma period_order_is_chronological_witness :
  period_le ("2023", "12") ("2024", "01") /\
  (number_of "2023" * 100 + number_of "12"
   <= number_of "2024" * 100 + number_of "01")%N.
Proof.
  split.
  - reflexivity.
  - exact (proj1 (period_order_is_chronological "2023" "12" "2024" "01"
                    eq_refl eq_refl eq_refl eq_refl eq_refl eq_refl eq_refl eq_refl)
             eq_refl).
Defined.

(* ================================================================== *)
(** * What the pipeline does to the world *)

Section steps.
Context (R : relation World) `{!PreOrder R}.

Lemma steps_bind {A B} (m : M A) (f : A -> M B) :
  steps R m -> (forall a, steps R (f a)) -> steps R (m ≫= f).
Proof.
  intros Hm Hf w r w' E. unfold mbind, M_bind in E.
  destruct (m w) as [[a|e] w1] eqn:E1.
  - etrans; [by eapply Hm|by eapply Hf].
  - injection E as <- <-. by eapply Hm.
Qed.

Lemma steps_try_except {A} (body : M A) (handler : exn -> M A) :
  steps R body -> (forall e, steps R (handler e)) ->
  steps R (try_except body handler).
Proof.
  intros Hb Hh w r w' E. unfold try_except in E.
  destruct (body w) as [[a|e] w1] eqn:E1.
  - injection E as <- <-. by eapply Hb.
  - etrans; [by eapply Hb|by eapply Hh].
Qed.

Lemma steps_try_except_of {A} cls (body : M A) (handler : exn -> M A) :
  steps R body -> (forall e, steps R (handler e)) ->
  steps R (try_except_of cls body handler).
Proof.
  intros Hb Hh w r w' E. unfold try_except_of in E.
  destruct (body w) as [[a|e] w1] eqn:E1.
  - injection E as <- <-. by eapply Hb.
  - destruct (decide (exn_class e = cls)).
    + etrans; [by eapply Hb|by eapply Hh].
    + injection E as <- <-. by eapply Hb.
Qed.

Lemma steps_same_world {A} (m : M A) :
  (forall w, exists r, m w = (r, w)) -> steps R m.
Proof.
  intros Hm w r w' E. destruct (Hm w) as [r' E']. rewrite E' in E.
  injection E as <- <-. reflexivity.
Qed.

Lemma steps_ret {A} (a : A) : steps R (mret a).
Proof. apply steps_same_world. intros w. by exists (Ok a). Qed.

Lemma steps_raise {A} (e : exn) : steps R (raise e : M A).
Proof. apply steps_same_world. intros w. by exists (Raise e). Qed.

Lemma steps_lift {A} (r : result A) : steps R (lift r).
Proof. apply steps_same_world. intros w. by exists r. Qed.

Lemma steps_time : steps R time.
Proof. apply steps_same_world. intros w. by exists (Ok (now w)). Qed.
End steps.

Lemma alarm_stays_off_preorder : PreOrder alarm_stays_off.
Proof.
  split.
  - intros w H. exact H.
  - intros w1 w2 w3 H12 H23 H. by apply H23, H12.
Qed.

Lemma same_outside_permits (P D : string -> Prop) :
  (forall p, D p -> P p) -> permits (same_outside P) P D.
Proof.
  intros HD. split.
  - split.
    + intros w p _. reflexivity.
    + intros w1 w2 w3 H12 H23 p Hp. by rewrite H23, H12.
  - intros w w' Hf p _. by rewrite Hf.
  - intros w w' p c Hp Hf q Hq. rewrite Hf.
    apply lookup_insert_ne. by intros ->.
  - intros w w' src dst c Hs Hd Hf q Hq. rewrite Hf.
    rewrite lookup_insert_ne by (by intros ->).
    apply lookup_delete_ne. intros ->. by apply Hq, HD.
Qed.

Lemma nothing_lost_outside_permits (D : string -> Prop) :
  permits (nothing_lost_outside D) (fun _ => True) D.
Proof.
  split.
  - split.
    + intros w p _ H. exact H.
    + intros w1 w2 w3 H12 H23 p Hp H. by apply H23, H12.
  - intros w w' Hf p _. by rewrite Hf.
  - intros w w' p c _ Hf q Hq Hsome. rewrite Hf.
    destruct (decide (p = q)) as [->|Hne].
    + rewrite lookup_insert_eq. eauto.
    + by rewrite lookup_insert_ne.
  - intros w w' src dst c Hs _ Hf q Hq Hsome. rewrite Hf.
    destruct (decide (dst = q)) as [->|Hne].
    + rewrite lookup_insert_eq. eauto.
    + rewrite lookup_insert_ne by done.
      rewrite lookup_delete_ne; [done|]. intros ->. by apply Hq.
Qed.

Lemma permits_allows R W D : permits R W D -> allows R W D.
Proof.
  intros [Hpre Hsame Hins Hren]. split; [done|..].
  - intros line w r w' [= <- <-]. by apply Hsame.
  - intros d w r w' E. apply Hsame. by destruct (wait_same_files _ _ _ _ E).
  - intros A seconds msg func Hf w r w' E. unfold timeout, mbind, M_bind in E.
    simpl in E. unfold try_finally in E.
    match type of E with
    | context [func ?w0] => destruct (func w0) as [r1 w1] eqn:E1
    end.
    simpl in E. injection E as <- <-.
    etrans; [|etrans; [by eapply Hf|]]; by apply Hsame.
  - intros p f Hp w r w' [= <- <-]. by apply (Hins _ _ p (f w)).
  - intros src dst Hs Hd w r w' E. unfold os_rename in E.
    destruct (files w !! src) as [c|]; injection E as <- <-.
    + by apply (Hren _ _ src dst c).
    + by apply Hsame.
Qed.

Lemma alarm_stays_off_allows :
  allows alarm_stays_off (fun _ => True) (fun _ => True).
Proof.
  split; [apply alarm_stays_off_preorder|..].
  - intros line w r w' [= <- <-] Ha. exact Ha.
  - intros d w r w' E Ha. unfold wait in E. rewrite Ha in E.
    injection E as <- <-. exact Ha.
  - intros A seconds msg func _ w r w' E _. unfold timeout, mbind, M_bind in E.
    simpl in E. unfold try_finally in E.
    match type of E with
    | context [func ?w0] => destruct (func w0) as [r1 w1] eqn:E1
    end.
    simpl in E. injection E as <- <-. reflexivity.
  - intros p f _ w r w' [= <- <-] Ha. exact Ha.
  - intros src dst _ _ w r w' E. unfold os_rename in E.
    destruct (files w !! src) as [c|]; injection E as <- <-; intros Ha; exact Ha.
Qed.

Section pipeline_steps.
Context (R : relation World) (W D : string -> Prop) (HA : allows R W D).

#[local] Instance pipeline_steps_preorder : PreOrder R := allows_preorder _ _ _ HA.

Lemma steps_sleep d : steps R (sleep d).
Proof.
  unfold sleep. destruct (d <? 0); [apply steps_raise, _|apply (allows_wait _ _ _ HA)].
Qed.

Lemma steps_write_bytes path data : W path -> steps R (write_bytes path data).
Proof.
  intros Hp. unfold write_bytes.
  by apply (allows_write _ _ _ HA path
              (fun w => RawFile (match files w !! path with
                                 | Some (RawFile b) => b
                                 | _ => ""
                                 end +:+ data))).
Qed.

Lemma steps_update_dataset path f : W path -> steps R (update_dataset path f).
Proof.
  intros Hp w r w' E. unfold update_dataset in E.
  destruct (files w !! path) as [[b|ds]|] eqn:Ef.
  - injection E as <- <-. reflexivity.
  - revert E. by apply (allows_write _ _ _ HA path (fun _ => NetCDF (f ds))).
  - injection E as <- <-. reflexivity.
Qed.

Lemma steps_retr_blocks stg chunks :
  W stg -> steps R (retr_blocks chunks (write_bytes stg)).
Proof.
  intros Hs. induction chunks as [|[d data] chunks IH]; simpl; [apply steps_ret, _|].
  apply steps_bind; [apply _|apply (allows_wait _ _ _ HA)|]. intros _.
  apply steps_bind; [apply _|by apply steps_write_bytes|]. intros _. done.
Qed.

Lemma steps_download ftpobj lp filename :
  W (staging_txt lp) -> D (staging_txt lp) -> W (local_file lp filename) ->
  steps R (download_data_file ftpobj lp filename).
Proof.
  intros Hw Hd Hf. unfold download_data_file.
  apply steps_try_except_of; [apply _| |intros e; apply steps_raise, _].
  apply steps_bind; [apply _| |intros _; by apply (allows_rename _ _ _ HA)].
  unfold _get_ftp_file. apply (allows_timeout _ _ _ HA).
  apply steps_bind; [apply _| |intros _].
  - by apply (allows_write _ _ _ HA _ (fun _ => RawFile "")).
  - unfold retrbinary.
    apply steps_bind; [apply _|by apply steps_retr_blocks|]. intros _.
    apply steps_bind; [apply _|apply (allows_wait _ _ _ HA)|]. intros _.
    destruct (retr_error _); [apply steps_raise, _|apply steps_ret, _].
Qed.

Lemma steps_read_table `{Libraries} path : steps R (read_table path).
Proof.
  apply steps_same_world; [apply _|]. intros w. unfold read_table.
  destruct (files w !! path) as [[bytes|ds]|]; [destruct (parse_table bytes)|..];
    eauto.
Qed.

Lemma steps_write_variables `{Libraries} nc fr labels vss :
  W nc -> steps R (write_variables nc fr labels vss).
Proof.
  intros Hn. induction vss as [|vs vss IH]; simpl; [apply steps_ret, _|].
  apply steps_bind; [apply _| |done]. unfold write_variable.
  apply steps_bind; [apply _|by apply steps_update_dataset|]. intros _.
  apply steps_bind; [apply _|apply steps_lift, _|]. intros data.
  by apply steps_update_dataset.
Qed.

Lemma steps_convert `{Libraries} lp filename :
  W (staging_nc lp) -> D (staging_nc lp) ->
  W (local_file lp (artifact_name filename)) ->
  steps R (convert_to_netCFD4 lp filename).
Proof.
  intros Hw Hd Hf. unfold convert_to_netCFD4.
  apply steps_bind; [apply _|apply steps_read_table|]. intros fr.
  apply steps_bind; [apply _|apply steps_time, _|]. intros t.
  apply steps_bind; [apply _| |intros _].
  { by apply (allows_write _ _ _ HA _ (fun _ => NetCDF _)). }
  apply steps_bind; [apply _|by apply steps_update_dataset|]. intros _.
  apply steps_bind; [apply _|by apply steps_write_variables|]. intros _.
  apply steps_bind; [apply _|by apply steps_update_dataset|]. intros _.
  apply steps_bind; [apply _|by apply steps_write_variables|]. intros _.
  apply steps_bind; [apply _|by apply steps_update_dataset|]. intros _.
  by apply (allows_rename _ _ _ HA).
Qed.

Lemma steps_fetch_and_convert `{Libraries} ftplink target names :
  (forall p, staging_path target p -> W p /\ D p) ->
  (forall f, In f names ->
             W (local_file target f) /\ W (local_file target (artifact_name f))) ->
  steps R (fetch_and_convert ftplink target names).
Proof.
  intros Hs. induction names as [|f names IH]; intros Hn; simpl;
    [apply steps_ret, _|].
  destruct (Hn f) as [Hf1 Hf2]; [by left|].
  destruct (Hs (staging_txt target)) as [? ?]; [by left|].
  destruct (Hs (staging_nc target)) as [? ?]; [by right|].
  apply steps_bind; [apply _|apply (allows_print _ _ _ HA)|]. intros _.
  apply steps_bind; [apply _|by apply steps_download|]. intros _.
  apply steps_bind; [apply _|apply (allows_print _ _ _ HA)|]. intros _.
  apply steps_bind; [apply _|by apply steps_convert|]. intros _.
  apply IH. intros g Hg. apply Hn. by right.
Qed.

Lemma steps_cycle_work `{Libraries} cred r :
  (forall p, staging_path (TARGET_PATH cred) p -> W p /\ D p) ->
  (forall p, pipeline_path (TARGET_PATH cred) p -> W p) ->
  steps R (cycle_work cred r).
Proof.
  intros Hs Hp. unfold cycle_work.
  apply steps_bind; [apply _|apply steps_time, _|]. intros start.
  apply steps_bind; [apply _|apply (allows_print _ _ _ HA)|]. intros _.
  apply steps_bind; [apply _| |].
  { unfold open_ftp_get_file_list.
    apply steps_bind; [apply _|apply (allows_wait _ _ _ HA)|]. intros _.
    destruct (connect_result r); [apply steps_ret, _|apply steps_raise, _]. }
  intros [ftplink foldercontent].
  apply steps_bind; [apply _|apply (allows_print _ _ _ HA)|]. intros _.
  intros w r0 w' E. unfold mbind, M_bind, lift in E.
  destruct (files_to_be_downloaded (files w) foldercontent (TARGET_PATH cred))
    as [[l|]|e] eqn:El.
  - revert E.
    apply steps_bind; [apply _| |intros _].
    + apply steps_fetch_and_convert; [done|]. intros f Hf.
      pose proof (selected_names_match _ _ _ _ _ El Hf) as Hm.
      split; apply Hp; right; exists f; eauto.
    + apply steps_bind; [apply _| |intros _].
      * unfold ftp_quit_cmd.
        destruct (ftp_quit ftplink); [apply steps_raise, _|apply steps_ret, _].
      * apply steps_bind; [apply _|apply (allows_print _ _ _ HA)|]. intros _.
        apply steps_ret, _.
  - injection E as <- <-. reflexivity.
  - injection E as <- <-. reflexivity.
Qed.

Lemma cycle_body_work_then_sleep `{Libraries} cred r w :
  cycle_body cred r w =
    (start_time ← cycle_work cred r;
     t ← time;
     sleep (milliseconds DownloadInterval - (t - start_time))) w.
Proof.
  unfold cycle_body, cycle_work, mbind, M_bind, time, print.
  destruct (open_ftp_get_file_list _ _ _ _ _ _) as [[[ftplink fc]|?] w1];
    [|reflexivity].
  unfold lift.
  destruct (files_to_be_downloaded _ _ _) as [[l|]|?]; try reflexivity.
  destruct (fetch_and_convert _ _ _ _) as [[?|?] w2]; [|reflexivity].
  destruct (ftp_quit_cmd _ _) as [[?|?] w3]; reflexivity.
Qed.

Lemma steps_poll_cycle `{Libraries} cred r :
  (forall p, staging_path (TARGET_PATH cred) p -> W p /\ D p) ->
  (forall p, pipeline_path (TARGET_PATH cred) p -> W p) ->
  steps R (poll_cycle cred r).
Proof.
  intros Hs Hp. unfold poll_cycle.
  apply steps_try_except; [apply _| |intros e; apply (allows_print _ _ _ HA)].
  intros w r0 w' E. rewrite cycle_body_work_then_sleep in E. revert E.
  apply steps_bind; [apply _|by apply steps_cycle_work|]. intros start.
  apply steps_bind; [apply _|apply steps_time, _|]. intros t. apply steps_sleep.
Qed.

Lemma steps_main_loop `{Libraries} cred station :
  (forall p, staging_path (TARGET_PATH cred) p -> W p /\ D p) ->
  (forall p, pipeline_path (TARGET_PATH cred) p -> W p) ->
  steps R (main_loop cred station).
Proof.
  intros Hs Hp. induction station as [|r station IH]; simpl;
    [apply steps_ret, _|].
  apply steps_bind; [apply _|by apply steps_poll_cycle|]. by intros _.
Qed.
End pipeline_steps.

Lemma staging_is_pipeline_path target p :
  staging_path target p -> pipeline_path target p.
Proof. intros H. by left. Qed.

(** Whatever the station does, and however many cycles are run, the loop
    changes nothing in the file system outside its own paths: the two
    staging names of the target directory, and in that directory the data
    files [DUSTMONITOR*.txt] and their artifacts. Every other path holds
    after the loop what it held before. *)
Theorem main_loop_writes_only_its_paths `{Libraries} (cred : credentials)
    (station : list remote) (w : World) (p : string) :
  ~ pipeline_path (TARGET_PATH cred) p ->
  files (snd (main_loop cred station w)) !! p = files w !! p.
Proof.
  intros Hp.
  destruct (main_loop cred station w) as [r w'] eqn:E. simpl.
  eapply (steps_main_loop (same_outside (pipeline_path (TARGET_PATH cred)))
            (pipeline_path (TARGET_PATH cred)) (staging_path (TARGET_PATH cred)));
    [| | |exact E|exact Hp].
  - apply permits_allows, same_outside_permits, staging_is_pipeline_path.
  - intros q Hq. split; [by apply staging_is_pipeline_path|done].
  - done.
Qed.

(** The loop never loses a file: a path that is not one of the two
    staging names and holds a file before the loop holds a file after it,
    whatever the station does. A data file or an artifact, once in the
    directory, is replaced at most, never removed. *)
Theorem main_loop_never_removes_a_file `{Libraries} (cred : credentials)
    (station : list remote) (w : World) (p : string) :
  ~ staging_path (TARGET_PATH cred) p ->
  is_Some (files w !! p) ->
  is_Some (files (snd (main_loop cred station w)) !! p).
Proof.
  intros Hp Hsome.
  destruct (main_loop cred station w) as [r w'] eqn:E. simpl.
  eapply (steps_main_loop (nothing_lost_outside (staging_path (TARGET_PATH cred)))
            (fun _ => True) (staging_path (TARGET_PATH cred)));
    [| | |exact E|exact Hp|exact Hsome].
  - apply permits_allows, nothing_lost_outside_permits.
  - done.
  - done.
Qed.

(** After any number of cycles no alarm is pending: the alarm set for a
    transfer is cancelled on every way out of it, so that it can interrupt
    neither the sleep nor a later cycle. *)
Theorem main_loop_leaves_no_alarm `{Libraries} (cred : credentials)
    (station : list remote) fs t out hist :
  alarm (snd (main_loop cred station (idle_world fs t out hist))) = None.
Proof.
  destruct (main_loop cred station (idle_world fs t out hist)) as [r w'] eqn:E.
  simpl.
  eapply (steps_main_loop alarm_stays_off (fun _ => True) (fun _ => True));
    [apply alarm_stays_off_allows|done|done|exact E|done].
Qed.

Lemma cycle_work_gives_start `{Libraries} cred r w s w1 :
  cycle_work cred r w = (Ok s, w1) -> s = now w.
Proof.
  unfold cycle_work, mbind, M_bind, time, print. intros E.
  destruct (open_ftp_get_file_list _ _ _ _ _ _) as [[[ftplink fc]|?] w2];
    [|done].
  unfold lift in E.
  destruct (files_to_be_downloaded _ _ _) as [[l|]|?]; try done.
  destruct (fetch_and_convert _ _ _ _) as [[?|?] w3]; [|done].
  destruct (ftp_quit_cmd _ _) as [[?|?] w4]; [|done].
  by injection E as <- _.
Qed.

(** A cycle that goes through without exception ends exactly one download
    interval after it began, however long its work took: its sleep makes
    up for the time the work has taken. *)
Theorem successful_cycle_lasts_one_interval `{Libraries} (cred : credentials)
    (r : remote) fs t out hist :
  let w := idle_world fs t out hist in
  fst (cycle_body cred r w) = Ok tt ->
  now (snd (cycle_body cred r w)) = t + milliseconds DownloadInterval.
Proof.
  intros w. rewrite cycle_body_work_then_sleep. unfold mbind, M_bind.
  destruct (cycle_work cred r w) as [[s|e] w1] eqn:E1; [|done].
  assert (Ha : alarm w1 = None).
  { eapply (steps_cycle_work alarm_stays_off (fun _ => True) (fun _ => True));
      [apply alarm_stays_off_allows|done|done|exact E1|done]. }
  apply cycle_work_gives_start in E1. subst s. simpl.
  unfold time, sleep.
  destruct (milliseconds DownloadInterval - (now w1 - t) <? 0); [done|].
  unfold wait. rewrite Ha. simpl. intros _. lia.
Qed.

Lemma successful_cycle_lasts_one_interval_witness :
  fst (cycle_body demo_credentials (demo_station 1000)
         (idle_world demo_directory 0 [] [])) = Ok tt /\
  now (snd (cycle_body demo_credentials (demo_station 1000)
              (idle_world demo_directory 0 [] [])))
  = 0 + milliseconds DownloadInterval.
Proof.
  assert (H1 : fst (cycle_body demo_credentials (demo_station 1000)
                      (idle_world demo_directory 0 [] [])) = Ok tt)
    by (by vm_compute).
  split; [exact H1|].
  exact (successful_cycle_lasts_one_interval demo_credentials (demo_station 1000)
           demo_directory 0 [] [] H1).
Defined.

